(** * A shallow embedding of [backend/server.js]

    The Express application of the repository: a connection lifecycle
    manager ([connectWithRetry], [createTableIfNotExists]) and six route
    handlers that map one HTTP request to at most one SQL statement and one
    JSON response.

    Layout of the development:
    - [Js]       the JavaScript values the handlers inspect;
    - [Http]     requests, responses and handler programs;
    - [Server]   the route handlers of the source, and how a handler runs
                 against a driver;
    - [Lifecycle] the connection manager as a transition system driven by
                 the callbacks the source registers;
    - [Engine]   a reference storage engine for the five statements of the
                 source (the engine itself is external to the repository);
    - the theorems. *)

From Stdlib Require Import List String Ascii Bool ZArith QArith Lia.
Import ListNotations.
Local Open Scope string_scope.
Local Open Scope list_scope.
Local Open Scope Z_scope.
Local Set Warnings "-register-all".

(* ------------------------------------------------------------------ *)
(** ** JavaScript values *)

Module Js.

(** A JavaScript number: a finite double is a rational; the two zeros
    are both [NFinite] with numerator [0]. *)
Inductive number :=
| NFinite (q : Q)
| NInfinity (negative : bool)
| NNaN.

Inductive value :=
| JUndefined
| JNull
| JBool (b : bool)
| JNum (n : number)
| JStr (s : string)
| JArr (items : list value)
| JObj (fields : list (string * value)).

Definition of_Z (z : Z) : value := JNum (NFinite (inject_Z z)).

(** [ToBoolean]: what [!v] negates. *)
Definition truthy (v : value) : bool :=
  match v with
  | JUndefined | JNull => false
  | JBool b => b
  | JNum (NFinite q) => negb (Qnum q =? 0)
  | JNum (NInfinity _) => true
  | JNum NNaN => false
  | JStr s => negb (String.eqb s "")
  | JArr _ | JObj _ => true
  end.

(** [v === 0]. *)
Definition strict_eq_zero (v : value) : bool :=
  match v with
  | JNum (NFinite q) => Qnum q =? 0
  | _ => false
  end.

(** Own-property lookup in an object given by its fields; an absent
    property reads as [undefined]. *)
Fixpoint get (fields : list (string * value)) (key : string) : value :=
  match fields with
  | [] => JUndefined
  | (k, v) :: rest => if String.eqb k key then v else get rest key
  end.

(** An [Error] object as the handlers read it: [err.code], [err.message]. *)
Record error := { err_code : option string; err_message : string }.

End Js.
Import Js.

(* ------------------------------------------------------------------ *)
(** ** Requests, responses, handler programs *)

Module Http.

(** [req.params.id] is the raw path segment; [req.body] is the object
    that [express.json()] left on the request, given by its fields. *)
Record request := { req_id : string; req_body : list (string * value) }.

Record response := { status : Z; body : value }.

(** [res.json(v)] *)
Definition json (v : value) : response := {| status := 200; body := v |}.
(** [res.status(c).json(v)] *)
Definition status_json (c : Z) (v : value) : response :=
  {| status := c; body := v |}.

(** What the driver hands to a query callback when [err] is null: a
    result header for a write, an array of rows for a read. *)
Inductive query_result :=
| ResultSetHeader (affectedRows insertId : Z)
| RowSet (rows : list value).

(** [result.insertId] *)
Definition insertId_of (r : query_result) : value :=
  match r with
  | ResultSetHeader _ i => of_Z i
  | RowSet _ => JUndefined
  end.

(** [result.affectedRows] *)
Definition affectedRows_of (r : query_result) : value :=
  match r with
  | ResultSetHeader a _ => of_Z a
  | RowSet _ => JUndefined
  end.

(** The value passed to [res.json(results)]. *)
Definition result_value (r : query_result) : value :=
  match r with
  | ResultSetHeader a i => JObj [("affectedRows", of_Z a); ("insertId", of_Z i)]
  | RowSet rows => JArr rows
  end.

(** What a query callback receives as [(err, result)]: an error, or (with
    [err] null) a result. *)
Inductive outcome :=
| Failed (err : error)
| Done (result : query_result).

(** A handler either answers, or calls [db.query(sql, values, callback)]
    and goes on in the callback. *)
Inductive handler :=
| Reply (r : response)
| DbQuery (sql : string) (values : list value) (callback : outcome -> handler).

(** One statement as the driver received it, with what it called back. *)
Record issued := {
  i_sql : string;
  i_values : list value;
  i_outcome : outcome
}.

End Http.
Import Http.

(* ------------------------------------------------------------------ *)
(** ** The route handlers of [server.js] *)

Module Server.

Definition PORT : Z := 3000.

Definition newline : string := String (ascii_of_nat 10) EmptyString.

(** The template literal of [createTableIfNotExists] and of
    [POST /create-table], line breaks and indentation included. *)
Definition create_table_sql : string :=
  (newline ++
   "    CREATE TABLE IF NOT EXISTS users (" ++ newline ++
   "      id INT AUTO_INCREMENT PRIMARY KEY," ++ newline ++
   "      name VARCHAR(100) NOT NULL," ++ newline ++
   "      email VARCHAR(100) NOT NULL" ++ newline ++
   "    )" ++ newline ++
   "  ")%string.

Definition insert_sql : string := "INSERT INTO users (name, email) VALUES (?, ?)".
Definition select_sql : string := "SELECT * FROM users".
Definition update_sql : string := "UPDATE users SET name = ?, email = ? WHERE id = ?".
Definition delete_sql : string := "DELETE FROM users WHERE id = ?".

Definition error_body (msg : string) : value := JObj [("error", JStr msg)].
Definition message_body (msg : string) : value := JObj [("message", JStr msg)].

(** [app.get('/health', ...)] *)
Definition health (req : request) : handler :=
  Reply (json (JObj [("status", JStr "Backend is running!")])).

(** [app.post('/create-table', ...)] *)
Definition create_table (req : request) : handler :=
  DbQuery create_table_sql [] (fun o =>
    match o with
    | Failed err => Reply (status_json 500 (error_body (err_message err)))
    | Done _ => Reply (json (message_body "Users table created successfully!"))
    end).

(** [app.post('/add-user', ...)] *)
Definition add_user (req : request) : handler :=
  let name := get (req_body req) "name" in
  let email := get (req_body req) "email" in
  if negb (truthy name) || negb (truthy email) then
    Reply (status_json 400 (error_body "Name and email are required"))
  else
    DbQuery insert_sql [name; email] (fun o =>
      match o with
      | Failed err => Reply (status_json 500 (error_body (err_message err)))
      | Done result =>
          Reply (json (JObj [("message", JStr "User added successfully!");
                             ("userId", insertId_of result)]))
      end).

(** [app.get('/users', ...)] *)
Definition list_users (req : request) : handler :=
  DbQuery select_sql [] (fun o =>
    match o with
    | Failed err => Reply (status_json 500 (error_body (err_message err)))
    | Done results => Reply (json (result_value results))
    end).

(** [app.put('/update-user/:id', ...)] *)
Definition update_user (req : request) : handler :=
  let id := req_id req in
  let name := get (req_body req) "name" in
  let email := get (req_body req) "email" in
  if negb (truthy name) || negb (truthy email) then
    Reply (status_json 400 (error_body "Name and email are required"))
  else
    DbQuery update_sql [name; email; JStr id] (fun o =>
      match o with
      | Failed err => Reply (status_json 500 (error_body (err_message err)))
      | Done result =>
          if strict_eq_zero (affectedRows_of result) then
            Reply (status_json 404 (error_body "User not found"))
          else
            Reply (json (message_body "User updated successfully!"))
      end).

(** [app.delete('/delete-user/:id', ...)] *)
Definition delete_user (req : request) : handler :=
  let id := req_id req in
  DbQuery delete_sql [JStr id] (fun o =>
    match o with
    | Failed err => Reply (status_json 500 (error_body (err_message err)))
    | Done result =>
        if strict_eq_zero (affectedRows_of result) then
          Reply (status_json 404 (error_body "User not found"))
        else
          Reply (json (message_body "User deleted successfully!"))
    end).

Inductive route :=
| Health | CreateTable | AddUser | ListUsers | UpdateUser | DeleteUser.

Definition handle (r : route) : request -> handler :=
  match r with
  | Health => health
  | CreateTable => create_table
  | AddUser => add_user
  | ListUsers => list_users
  | UpdateUser => update_user
  | DeleteUser => delete_user
  end.

(** The statement a route sends, if it sends one, and the values it binds. *)
Definition statement_of (r : route) : option string :=
  match r with
  | Health => None
  | CreateTable => Some create_table_sql
  | AddUser => Some insert_sql
  | ListUsers => Some select_sql
  | UpdateUser => Some update_sql
  | DeleteUser => Some delete_sql
  end.

Definition bound_values (r : route) (req : request) : list value :=
  match r with
  | Health | CreateTable | ListUsers => []
  | AddUser => [get (req_body req) "name"; get (req_body req) "email"]
  | UpdateUser =>
      [get (req_body req) "name"; get (req_body req) "email"; JStr (req_id req)]
  | DeleteUser => [JStr (req_id req)]
  end.

(** Running a handler against a driver: [db.query] is answered by
    [driver], which owns a state of its own (the connection and whatever
    is behind it) and calls back with an error or a result.  The run
    returns the response, the driver's state afterwards, and the statements
    issued, in order. *)
Section Run.
Context {D : Type}.
Variable driver : string -> list value -> D -> outcome * D.

Fixpoint run (h : handler) (d : D) : response * D * list issued :=
  match h with
  | Reply r => (r, d, [])
  | DbQuery sql values callback =>
      let '(o, d1) := driver sql values d in
      let '(r, d2, log) := run (callback o) d1 in
      (r, d2, {| i_sql := sql; i_values := values; i_outcome := o |} :: log)
  end.

Definition serve (r : route) (req : request) (d : D)
  : response * D * list issued :=
  run (handle r req) d.
End Run.

Definition response_of {D} (x : response * D * list issued) : response :=
  fst (fst x).
Definition state_of {D} (x : response * D * list issued) : D := snd (fst x).
Definition issued_of {D} (x : response * D * list issued) : list issued :=
  snd x.

(** Unfolds a served request down to the driver call. *)
Ltac served :=
  unfold serve, handle, health, create_table, add_user, list_users,
    update_user, delete_user, response_of, state_of, issued_of;
  cbn [run fst snd].

End Server.
Import Server.

(* ------------------------------------------------------------------ *)
(** ** The connection lifecycle manager *)

Module Lifecycle.

(** What the manager asks of the platform, in the order it asks. *)
Inductive action :=
| CreateConnection (c : nat)        (* db = mysql.createConnection({...}) *)
| Connect (c : nat)                 (* db.connect(callback) *)
| OnError (c : nat)                 (* db.on('error', listener) *)
| SetTimeout (delay : Z)            (* setTimeout(connectWithRetry, delay) *)
| Query (c : nat) (sql : string)    (* db.query(sql, callback) *)
| Log (line : string).              (* console.log(...) *)

(** The global [db] and what the event loop holds for the manager.
    Connections are numbered in the order [mysql.createConnection] made
    them. *)
Record manager := {
  db : option nat;          (* [let db;] is undefined until the first call *)
  created : nat;            (* connections made so far *)
  connecting : list nat;    (* connect callbacks not yet called *)
  listening : list nat;     (* connections carrying the error listener *)
  timers : list Z;          (* pending timeouts, each for connectWithRetry *)
  creating : list nat;      (* create-table callbacks not yet called *)
  trace : list action
}.

Definition boot : manager :=
  {| db := None; created := 0%nat; connecting := []; listening := [];
     timers := []; creating := []; trace := [] |}.

Definition emit (a : list action) (st : manager) : manager :=
  {| db := db st; created := created st; connecting := connecting st;
     listening := listening st; timers := timers st;
     creating := creating st; trace := trace st ++ a |}.

(** [console.log(a, b)] prints its arguments separated by a space. *)
Definition console_log2 (a b : string) (st : manager) : manager :=
  emit [Log (a ++ " " ++ b)%string] st.
Definition console_log (a : string) (st : manager) : manager :=
  emit [Log a] st.

(** [function connectWithRetry()]: a new connection replaces the global
    handle, its connect callback and its error listener are registered. *)
Definition connectWithRetry (st : manager) : manager :=
  let c := created st in
  {| db := Some c; created := S c;
     connecting := connecting st ++ [c];
     listening := listening st ++ [c];
     timers := timers st; creating := creating st;
     trace := trace st ++ [CreateConnection c; Connect c; OnError c] |}.

(** [setTimeout(connectWithRetry, delay)] *)
Definition setTimeout (delay : Z) (st : manager) : manager :=
  {| db := db st; created := created st; connecting := connecting st;
     listening := listening st; timers := timers st ++ [delay];
     creating := creating st; trace := trace st ++ [SetTimeout delay] |}.

(** [function createTableIfNotExists()]: the statement goes to whatever
    the global [db] is at that moment; [None] is the TypeError of calling
    [query] on undefined. *)
Definition createTableIfNotExists (st : manager) : option manager :=
  match db st with
  | None => None
  | Some c =>
      Some {| db := db st; created := created st;
              connecting := connecting st; listening := listening st;
              timers := timers st; creating := creating st ++ [c];
              trace := trace st ++ [Query c create_table_sql] |}
  end.

(** The callback given to [db.connect]. *)
Definition connect_callback (err : option error) (st : manager)
  : option manager :=
  match err with
  | Some e =>
      Some (setTimeout 5000
              (console_log2 "MySQL not ready, retrying in 5 seconds..."
                            (err_message e) st))
  | None =>
      createTableIfNotExists (console_log "Connected to MySQL database!" st)
  end.

Definition code_is (e : error) (code : string) : bool :=
  match err_code e with
  | Some c => String.eqb c code
  | None => false
  end.

(** The listener given to [db.on('error', ...)]. *)
Definition error_listener (e : error) (st : manager) : manager :=
  let st1 := console_log2 "MySQL connection error:" (err_message e) st in
  if code_is e "PROTOCOL_CONNECTION_LOST" then connectWithRetry st1 else st1.

(** The callback given to [db.query] in [createTableIfNotExists]. *)
Definition table_callback (err : option error) (st : manager) : manager :=
  match err with
  | Some e => console_log2 "Error creating table:" (err_message e) st
  | None => console_log "Users table is ready!" st
  end.

(** What the platform can do to the manager: call one of the callbacks it
    was given. *)
Inductive event :=
| ConnectDone (c : nat) (err : option error)
| ErrorEvent (c : nat) (err : error)
| TimerFired
| TableDone (c : nat) (err : option error).

Definition mem (c : nat) (l : list nat) : bool := existsb (Nat.eqb c) l.
Definition drop (c : nat) (l : list nat) : list nat :=
  filter (fun x => negb (Nat.eqb c x)) l.

(** One pending callback less: a connection can have several statements
    in flight, each with a callback of its own. *)
Fixpoint drop_one (c : nat) (l : list nat) : list nat :=
  match l with
  | [] => []
  | x :: rest => if Nat.eqb c x then rest else x :: drop_one c rest
  end.

Definition set_connecting (l : list nat) (st : manager) : manager :=
  {| db := db st; created := created st; connecting := l;
     listening := listening st; timers := timers st;
     creating := creating st; trace := trace st |}.
Definition set_timers (l : list Z) (st : manager) : manager :=
  {| db := db st; created := created st; connecting := connecting st;
     listening := listening st; timers := l;
     creating := creating st; trace := trace st |}.
Definition set_creating (l : list nat) (st : manager) : manager :=
  {| db := db st; created := created st; connecting := connecting st;
     listening := listening st; timers := timers st;
     creating := l; trace := trace st |}.

(** One turn of the event loop; [None] when the platform holds no such
    callback (the event cannot happen in that state). *)
Definition step (ev : event) (st : manager) : option manager :=
  match ev with
  | ConnectDone c err =>
      if mem c (connecting st)
      then connect_callback err (set_connecting (drop c (connecting st)) st)
      else None
  | ErrorEvent c e =>
      if mem c (listening st) then Some (error_listener e st) else None
  | TimerFired =>
      match timers st with
      | [] => None
      | _ :: rest => Some (connectWithRetry (set_timers rest st))
      end
  | TableDone c err =>
      if mem c (creating st)
      then Some (table_callback err (set_creating (drop_one c (creating st)) st))
      else None
  end.

Fixpoint run_events (evs : list event) (st : manager) : option manager :=
  match evs with
  | [] => Some st
  | ev :: rest =>
      match step ev st with
      | Some st1 => run_events rest st1
      | None => None
      end
  end.

(** The last line of the file: [connectWithRetry();] *)
Definition startup : manager := connectWithRetry boot.

(** Connection attempts made, and the delays of all timeouts scheduled. *)
Definition attempts (tr : list action) : nat :=
  List.length (filter (fun a => match a with Connect _ => true | _ => false end) tr).
Fixpoint delays (tr : list action) : list Z :=
  match tr with
  | [] => []
  | SetTimeout d :: rest => d :: delays rest
  | _ :: rest => delays rest
  end.

(** [n] failed attempts in a row: the attempt on connection [c] fails, the
    timer fires, the attempt on the next connection fails, and so on. *)
Fixpoint failures (errs : list error) (c next : nat) : list event :=
  match errs with
  | [] => []
  | e :: rest =>
      ConnectDone c (Some e) :: TimerFired :: failures rest next (S next)
  end.

End Lifecycle.

(* ------------------------------------------------------------------ *)
(** ** A reference storage engine *)

Module Engine.

(** Modelled from the spec: the storage engine is an external system and
    none of its code is in the repository; this module is a reference
    model of it, from sections 3, 4.2 and 6 of the specification and the
    schema in the source's [CREATE TABLE].

    One persisted record of the [users] table. *)
Record user := { id : Z; name : string; email : string }.

(** The table: its rows in the engine's natural order, and the next value
    of the [AUTO_INCREMENT] counter. *)
Record table := { rows : list user; auto_increment : Z }.

(** The database [mydb]: the [users] table, once created. *)
Definition database := option table.

Definition empty_table : table := {| rows := []; auto_increment := 1 |}.

(** How the engine reads the text bound to [WHERE id = ?]: as an integer
    key, as a value no integer column equals, or not at all. *)
Inductive key :=
| KeyInt (z : Z)
| KeyNone
| KeyInvalid (err : error).

(** What the engine and the driver decide between them and the source
    does not: how a bound value becomes the text of a [VARCHAR(100) NOT
    NULL] column (or is refused), how a bound path segment is compared
    with the [INT] key, and the errors for a missing table and for a
    statement the engine cannot run. *)
Record dialect := {
  column_text : value -> error + string;
  key_of : string -> key;
  no_such_table : error;
  bad_statement : error
}.

(** A row as the driver hands it to [res.json]. *)
Definition row_value (r : user) : value :=
  JObj [("id", of_Z (id r)); ("name", JStr (name r)); ("email", JStr (email r))].

Definition has_id (z : Z) (r : user) : bool := id r =? z.

Definition set_fields (z : Z) (n e : string) (r : user) : user :=
  if has_id z r then {| id := id r; name := n; email := e |} else r.

Section Statements.
Variable dl : dialect.

(** Modelled from the spec: [INSERT INTO users (name, email) VALUES (?, ?)]
    appends one record whose identifier is the counter's value, and
    reports that value as the insert id. *)
Definition insert (values : list value) (t : table) : outcome * table :=
  match values with
  | [n; e] =>
      match column_text dl n, column_text dl e with
      | inr n1, inr e1 =>
          (Done (ResultSetHeader 1 (auto_increment t)),
           {| rows := rows t ++
                      [{| id := auto_increment t; name := n1; email := e1 |}];
              auto_increment := auto_increment t + 1 |})
      | inl err, _ => (Failed err, t)
      | _, inl err => (Failed err, t)
      end
  | _ => (Failed (bad_statement dl), t)
  end.

(** Modelled from the spec: [SELECT * FROM users] returns every record
    in the engine's natural order, here insertion order. *)
Definition select (t : table) : outcome * table :=
  (Done (RowSet (map row_value (rows t))), t).

(** Modelled from the spec: [UPDATE users SET name = ?, email = ? WHERE
    id = ?] rewrites name and email of the rows the [WHERE] clause
    matches; the affected-row count is the number of rows matched (any
    match yields a count of at least one, only a true absence zero). *)
Definition update (values : list value) (t : table) : outcome * table :=
  match values with
  | [n; e; JStr k] =>
      match key_of dl k with
      | KeyInt z =>
          if existsb (has_id z) (rows t) then
            match column_text dl n, column_text dl e with
            | inr n1, inr e1 =>
                (Done (ResultSetHeader
                         (Z.of_nat (List.length (filter (has_id z) (rows t)))) 0),
                 {| rows := map (set_fields z n1 e1) (rows t);
                    auto_increment := auto_increment t |})
            | inl err, _ => (Failed err, t)
            | _, inl err => (Failed err, t)
            end
          else (Done (ResultSetHeader 0 0), t)
      | KeyNone => (Done (ResultSetHeader 0 0), t)
      | KeyInvalid err => (Failed err, t)
      end
  | _ => (Failed (bad_statement dl), t)
  end.

(** Modelled from the spec: [DELETE FROM users WHERE id = ?] removes the
    rows the [WHERE] clause matches and reports how many. *)
Definition delete (values : list value) (t : table) : outcome * table :=
  match values with
  | [JStr k] =>
      match key_of dl k with
      | KeyInt z =>
          (Done (ResultSetHeader
                   (Z.of_nat (List.length (filter (has_id z) (rows t)))) 0),
           {| rows := filter (fun r => negb (has_id z r)) (rows t);
              auto_increment := auto_increment t |})
      | KeyNone => (Done (ResultSetHeader 0 0), t)
      | KeyInvalid err => (Failed err, t)
      end
  | _ => (Failed (bad_statement dl), t)
  end.

Definition on_table (f : table -> outcome * table) (t : table)
  : outcome * database :=
  let '(o, t1) := f t in (o, Some t1).

(** Modelled from the spec: the storage engine is an external system and
    no code of it is in the repository.  [exec] gives the five statement
    texts of the source the meaning sections 3, 4.2 and 6 of the
    specification describe, under the schema of the source's
    [CREATE TABLE]: identifiers assigned by the engine from an
    auto-increment counter, rows listed in insertion order, update and
    delete by identifier reporting the number of rows matched. *)
Definition exec (sql : string) (values : list value) (d : database)
  : outcome * database :=
  if String.eqb sql create_table_sql then
    (Done (ResultSetHeader 0 0),
     Some (match d with Some t => t | None => empty_table end))
  else
    match d with
    | None => (Failed (no_such_table dl), None)
    | Some t =>
        if String.eqb sql insert_sql then on_table (insert values) t
        else if String.eqb sql select_sql then on_table select t
        else if String.eqb sql update_sql then on_table (update values) t
        else if String.eqb sql delete_sql then on_table (delete values) t
        else (Failed (bad_statement dl), d)
    end.

End Statements.

(** The table invariant: identifiers are unique and below the counter. *)
Definition well_formed (t : table) : Prop :=
  NoDup (map id (rows t)) /\ Forall (fun r => id r < auto_increment t) (rows t).

(** A dialect that stores text of at most 100 characters as it is, reads
    a decimal numeral as an integer key, and refuses everything else. *)
Definition digit_of (a : ascii) : option Z :=
  let n := Z.of_nat (nat_of_ascii a) in
  if (48 <=? n) && (n <=? 57) then Some (n - 48) else None.

Fixpoint decimal (s : string) (acc : Z) : option Z :=
  match s with
  | EmptyString => Some acc
  | String a rest =>
      match digit_of a with
      | Some dgt => decimal rest (10 * acc + dgt)
      | None => None
      end
  end.

Definition plain_error (msg : string) : error :=
  {| err_code := None; err_message := msg |}.

Definition plain : dialect :=
  {| column_text := fun v =>
       match v with
       | JStr s =>
           if (String.length s <=? 100)%nat then inr s
           else inl (plain_error "Data too long")
       | _ => inl (plain_error "Incorrect string value")
       end;
     key_of := fun s =>
       match s with
       | EmptyString => KeyNone
       | _ => match decimal s 0 with
              | Some z => KeyInt z
              | None => KeyInvalid (plain_error "Truncated incorrect value")
              end
       end;
     no_such_table := plain_error "Table mydb.users does not exist";
     bad_statement := plain_error "Statement not understood" |}.

End Engine.

(* ------------------------------------------------------------------ *)
(** ** The requests of the README walk-through *)

Module Scenario.

Definition body_of (n e : string) : list (string * value) :=
  [("name", JStr n); ("email", JStr e)].

Definition add_aryan : request :=
  {| req_id := ""; req_body := body_of "Aryan" "aryan@example.com" |}.
Definition add_priya : request :=
  {| req_id := ""; req_body := body_of "Priya" "priya@example.com" |}.
Definition get_users : request := {| req_id := ""; req_body := [] |}.
Definition update_1 : request :=
  {| req_id := "1"; req_body := body_of "Aryan Kumar" "aryan.kumar@example.com" |}.
Definition delete_2 : request := {| req_id := "2"; req_body := [] |}.

(** Requests that do not pass: an empty email, and an update with no body
    aimed at a path segment that is no number. *)
Definition add_without_email : request :=
  {| req_id := ""; req_body := body_of "Aryan" "" |}.
Definition update_abc_no_body : request := {| req_id := "abc"; req_body := [] |}.

Definition aryan : Engine.user :=
  {| Engine.id := 1; Engine.name := "Aryan"; Engine.email := "aryan@example.com" |}.
Definition priya : Engine.user :=
  {| Engine.id := 2; Engine.name := "Priya"; Engine.email := "priya@example.com" |}.
Definition aryan_kumar : Engine.user :=
  {| Engine.id := 1; Engine.name := "Aryan Kumar";
     Engine.email := "aryan.kumar@example.com" |}.

Definition one_user : Engine.table :=
  {| Engine.rows := [aryan]; Engine.auto_increment := 2 |}.
Definition two_users : Engine.table :=
  {| Engine.rows := [aryan; priya]; Engine.auto_increment := 3 |}.

(** A driver with no engine behind it: every statement fails. *)
Definition refused : error :=
  {| err_code := Some "ECONNREFUSED";
     err_message := "connect ECONNREFUSED 127.0.0.1:3306" |}.
Definition unreachable (sql : string) (values : list value) (u : unit)
  : outcome * unit :=
  (Failed refused, u).

(** The manager once the first attempt has succeeded and the table is
    there, and the error of a connection the server closed. *)
Definition connected : Lifecycle.manager :=
  match Lifecycle.run_events
          [Lifecycle.ConnectDone 0 None; Lifecycle.TableDone 0 None]
          Lifecycle.startup with
  | Some st => st
  | None => Lifecycle.boot
  end.
Definition connection_lost : error :=
  {| err_code := Some "PROTOCOL_CONNECTION_LOST";
     err_message := "Connection lost: The server closed the connection." |}.

(** An update aimed at an identifier no record of [two_users] carries. *)
Definition update_7 : request :=
  {| req_id := "7"; req_body := body_of "Nobody" "nobody@example.com" |}.

End Scenario.

(* ------------------------------------------------------------------ *)
(** ** The options given to [mysql.createConnection] *)

Module Config.

(** [process.env]: a variable is a string, or undefined. *)
Definition environment := string -> option string.

Record options := {
  host : string;
  user : string;
  password : string;
  database : string
}.

(** [v || fallback] for [v] a string or undefined: the empty string is
    falsy, as undefined is. *)
Definition or_default (v : option string) (fallback : string) : string :=
  match v with
  | Some s => if String.eqb s "" then fallback else s
  | None => fallback
  end.

(** The object literal of [connectWithRetry]. *)
Definition options_of (env : environment) : options :=
  {| host := or_default (env "DB_HOST") "localhost";
     user := or_default (env "DB_USER") "root";
     password := or_default (env "DB_PASSWORD") "rootpass";
     database := or_default (env "DB_NAME") "mydb" |}.

(** The environment with the variables set to the empty string unset. *)
Definition without_empty (env : environment) : environment :=
  fun k =>
    match env k with
    | Some s => if String.eqb s "" then None else Some s
    | None => None
    end.

End Config.

(* ------------------------------------------------------------------ *)
(** ** Counting what the platform did and what the manager asked *)

Module Accounting.
Import Lifecycle.

Definition is_timer (ev : event) : bool :=
  match ev with TimerFired => true | _ => false end.

Definition is_lost (ev : event) : bool :=
  match ev with
  | ErrorEvent _ e => code_is e "PROTOCOL_CONNECTION_LOST"
  | _ => false
  end.

Definition is_refusal (ev : event) : bool :=
  match ev with ConnectDone _ (Some _) => true | _ => false end.

Definition is_success (ev : event) : bool :=
  match ev with ConnectDone _ None => true | _ => false end.

Definition b2n (b : bool) : nat := if b then 1%nat else 0%nat.

Definition count (p : event -> bool) (evs : list event) : nat :=
  List.length (filter p evs).

(** Statements the manager sent, and connections it made. *)
Definition queries (tr : list action) : nat :=
  List.length (filter (fun a => match a with Query _ _ => true | _ => false end) tr).

(** What holds of the manager whenever the event loop is idle. *)
Definition coherent (st : manager) : Prop :=
  db st = Some (pred (created st)) /\
  (0 < created st)%nat /\
  listening st = seq 0 (created st) /\
  NoDup (connecting st) /\
  (forall c, In c (connecting st) -> (c < created st)%nat) /\
  (forall c, In c (creating st) -> (c < created st)%nat) /\
  Forall (fun d => d = 5000) (timers st) /\
  Forall (fun d => d = 5000) (delays (trace st)) /\
  attempts (trace st) = created st.

(** The manager after start-up once the server has closed connection 0
    during the handshake (two attempts pending), and after the first
    attempt was refused (one timer pending). *)
Definition after (evs : list event) : manager :=
  match run_events evs startup with
  | Some st => st
  | None => boot
  end.

Definition closed_in_handshake : manager :=
  after [ErrorEvent 0 Scenario.connection_lost].

Definition refused_once : manager :=
  after [ConnectDone 0 (Some Scenario.refused)].

(** A run in which both attempts of [closed_in_handshake] succeed: the two
    CREATE TABLE statements go to connection 1, and both callbacks fire. *)
Definition two_tables_on_one_connection : list event :=
  [ErrorEvent 0 Scenario.connection_lost;
   ConnectDone 0 None; ConnectDone 1 None;
   TableDone 1 None; TableDone 1 (Some Scenario.refused)].

End Accounting.

(** The [?] marks of a statement text, each of which the driver replaces
    by the next bound value. *)
Fixpoint placeholders (s : string) : nat :=
  match s with
  | EmptyString => 0%nat
  | String a rest =>
      ((if Ascii.eqb a "?"%char then 1 else 0) + placeholders rest)%nat
  end.

(** Splits a served request into the cases of its handler. *)
Ltac handler_cases driver d :=
  served;
  try match goal with
      | |- context [negb (truthy ?n) || negb (truthy ?e)] =>
          destruct (truthy n) eqn:?, (truthy e) eqn:?; cbn [negb orb andb run]
      end;
  try match goal with
      | |- context [driver ?s ?v d] =>
          let e := fresh "e" in
          let res := fresh "res" in
          let d1 := fresh "d" in
          destruct (driver s v d) as [[e | res] d1] eqn:?
      end;
  cbn [fst snd];
  try match goal with
      | |- context [strict_eq_zero ?x] => destruct (strict_eq_zero x) eqn:?
      end;
  cbn.


(* ------------------------------------------------------------------ *)
(** ** Facts about values and about running a handler *)

Section ValueFacts.

Lemma truthy_missing : forall fields key,
  (forall v, ~ In (key, v) fields) -> truthy (get fields key) = false.
Proof.
  induction fields as [| [k v] rest IH]; intros key Habs; [reflexivity |].
  simpl. destruct (String.eqb k key) eqn:E.
  - apply String.eqb_eq in E. subst k. exfalso. apply (Habs v). now left.
  - apply IH. intros w Hw. apply (Habs w). now right.
Qed.

Lemma truthy_empty_string : truthy (JStr "") = false.
Proof. reflexivity. Qed.

Lemma truthy_null : truthy JNull = false.
Proof. reflexivity. Qed.

Lemma strict_eq_zero_of_Z : forall z, strict_eq_zero (of_Z z) = (z =? 0).
Proof. intro z. reflexivity. Qed.

End ValueFacts.

(** The guard [!name || !email] of the two writing handlers. *)
Lemma guard_rejects : forall name email,
  truthy name = false \/ truthy email = false ->
  negb (truthy name) || negb (truthy email) = true.
Proof.
  intros name email [H | H]; rewrite H; simpl; [reflexivity |].
  apply orb_true_r.
Qed.

Lemma guard_accepts : forall name email,
  truthy name = true -> truthy email = true ->
  negb (truthy name) || negb (truthy email) = false.
Proof. intros name email Hn He. now rewrite Hn, He. Qed.

(** Every route issues at most one statement. *)
Lemma at_most_one_statement :
  forall (D : Type) (driver : string -> list value -> D -> outcome * D)
         (d : D) (r : route) (req : request),
    (List.length (issued_of (serve driver r req d)) <= 1)%nat.
Proof.
  intros D driver d r req.
  destruct r; served; try (cbn; lia);
    try (destruct (negb _ || negb _); [cbn; lia | cbn [run]]);
    match goal with
    | |- context [driver ?s ?v ?d] => destruct (driver s v d) as [[e | res] d1]
    end; cbn;
    try (destruct (strict_eq_zero _)); cbn; lia.
Qed.

(* ------------------------------------------------------------------ *)
(** ** Validation *)

(** C2. An add-user or update-user request whose [name] or [email] is
    missing or empty (falsy) is answered 400 with the message
    "Name and email are required"; no statement is issued and the
    driver's state, hence the persisted table, is what it was. *)
Theorem validation_rejects_before_storage :
  forall (D : Type) (driver : string -> list value -> D -> outcome * D)
         (d : D) (r : route) (req : request),
    r = AddUser \/ r = UpdateUser ->
    truthy (get (req_body req) "name") = false \/
    truthy (get (req_body req) "email") = false ->
    serve driver r req d =
      (status_json 400 (error_body "Name and email are required"), d, []).
Proof.
  intros D driver d r req Hr Hmissing.
  apply guard_rejects in Hmissing.
  destruct Hr as [-> | ->]; served; rewrite Hmissing; reflexivity.
Qed.

Lemma validation_rejects_before_storage_witness :
  serve (Engine.exec Engine.plain) AddUser Scenario.add_without_email
        (Some Scenario.one_user)
  = (status_json 400 (error_body "Name and email are required"),
     Some Scenario.one_user, []).
Proof.
  apply validation_rejects_before_storage; [left | right]; reflexivity.
Defined.

(* ------------------------------------------------------------------ *)
(** ** Health check *)

(** C5. The health check answers 200 with the status string whatever the
    state of the driver and of the connection behind it (any [D], any
    [d], so also before the first successful connection); it issues no
    statement and leaves that state untouched: its program is a bare
    reply. *)
Theorem health_is_unconditional :
  forall (D : Type) (driver : string -> list value -> D -> outcome * D)
         (d : D) (req : request),
    handle Health req = Reply (json (JObj [("status", JStr "Backend is running!")]))
    /\ serve driver Health req d =
         ({| status := 200; body := JObj [("status", JStr "Backend is running!")] |},
          d, []).
Proof. intros. split; reflexivity. Qed.

(* ------------------------------------------------------------------ *)
(** ** Statement texts *)

Lemma issued_shape :
  forall (D : Type) (driver : string -> list value -> D -> outcome * D)
         (d : D) (r : route) (req : request),
    Forall (fun i => statement_of r = Some (i_sql i) /\
                     i_values i = bound_values r req)
           (issued_of (serve driver r req d)).
Proof.
  intros D driver d r req.
  destruct r; served; try (constructor; fail);
    try (destruct (negb _ || negb _); [constructor | cbn [run]]);
    match goal with
    | |- context [driver ?s ?v ?d] => destruct (driver s v d) as [[e | res] d1]
    end; cbn;
    try (destruct (strict_eq_zero _)); cbn;
    repeat constructor.
Qed.

(** C8. The text of every statement a handler sends is a constant of its
    route: two requests to one route, whatever their bodies and path
    parameters and whatever the driver does, send the same text; name,
    email and id travel only in the list of bound values, each in its
    position. *)
Theorem statement_text_is_constant :
  forall (D : Type) (driver driver' : string -> list value -> D -> outcome * D)
         (d d' : D) (r : route) (req req' : request),
    Forall (fun i =>
              statement_of r = Some (i_sql i) /\
              i_values i = bound_values r req /\
              Forall (fun i' => i_sql i' = i_sql i)
                     (issued_of (serve driver' r req' d')))
           (issued_of (serve driver r req d)).
Proof.
  intros D driver driver' d d' r req req'.
  pose proof (issued_shape D driver d r req) as H.
  pose proof (issued_shape D driver' d' r req') as H'.
  rewrite Forall_forall in *. intros i Hi.
  destruct (H i Hi) as [Hs Hv]. repeat split; trivial.
  rewrite Forall_forall. intros i' Hi'.
  destruct (H' i' Hi') as [Hs' _]. congruence.
Qed.

(* ------------------------------------------------------------------ *)
(** ** Driver failures *)

(** A failure among the statements of a request decides its response. *)
Lemma recorded_failure_is_500 :
  forall (D : Type) (driver : string -> list value -> D -> outcome * D)
         (d : D) (r : route) (req : request) (i : issued) (e : error),
    In i (issued_of (serve driver r req d)) ->
    i_outcome i = Failed e ->
    response_of (serve driver r req d) =
      {| status := 500; body := JObj [("error", JStr (err_message e))] |}
    /\ issued_of (serve driver r req d) = [i].
Proof.
  intros D driver d r req i e.
  destruct r; served; try (intros []; fail);
    try (destruct (negb _ || negb _); [intros [] | cbn [run]]);
    match goal with
    | |- context [driver ?s ?v ?d] => destruct (driver s v d) as [[e0 | res] d1]
    end; cbn;
    try (destruct (strict_eq_zero _)); cbn;
    intros [<- | []]; cbn; intros He; inversion He; subst; split; reflexivity.
Qed.

(** C9. Whenever the driver answers the statement of a request with an
    error (the route sends a statement and, for add-user and update-user,
    the body passes the guard), the response is 500 and its [error] field
    is the driver's message as it came; the statement was sent once and
    is the only one of the request (nothing is retried), and the driver's
    state is the one that call left.  Conversely a failure among the
    statements a request issued always gives that 500.  [serve] is a
    total function: a response is produced in every case. *)
Theorem driver_failure_is_500 :
  forall (D : Type) (driver : string -> list value -> D -> outcome * D)
         (d d1 : D) (r : route) (req : request) (sql : string) (e : error),
    statement_of r = Some sql ->
    match r with
    | AddUser | UpdateUser =>
        truthy (get (req_body req) "name") = true /\
        truthy (get (req_body req) "email") = true
    | _ => True
    end ->
    driver sql (bound_values r req) d = (Failed e, d1) ->
    serve driver r req d =
      ({| status := 500; body := JObj [("error", JStr (err_message e))] |},
       d1,
       [{| i_sql := sql; i_values := bound_values r req;
           i_outcome := Failed e |}])
    /\
    (forall (i : issued) (e' : error),
        In i (issued_of (serve driver r req d)) ->
        i_outcome i = Failed e' ->
        response_of (serve driver r req d) =
          {| status := 500; body := JObj [("error", JStr (err_message e'))] |}
        /\ issued_of (serve driver r req d) = [i]).
Proof.
  intros D driver d d1 r req sql e Hsql Hguard Hdrv. split.
  - destruct r; cbn [statement_of] in Hsql; inversion Hsql; subst sql;
      clear Hsql; cbn [bound_values] in Hdrv; served;
      try (rewrite (guard_accepts _ _ (proj1 Hguard) (proj2 Hguard));
           cbn [run]);
      rewrite Hdrv; reflexivity.
  - intros i e'. apply recorded_failure_is_500.
Qed.

Lemma driver_failure_is_500_witness :
  serve Scenario.unreachable AddUser Scenario.add_aryan tt =
    ({| status := 500;
        body := JObj [("error", JStr "connect ECONNREFUSED 127.0.0.1:3306")] |},
     tt,
     [{| i_sql := insert_sql;
         i_values := [JStr "Aryan"; JStr "aryan@example.com"];
         i_outcome := Failed Scenario.refused |}])
  /\
  serve Scenario.unreachable ListUsers Scenario.get_users tt =
    ({| status := 500;
        body := JObj [("error", JStr "connect ECONNREFUSED 127.0.0.1:3306")] |},
     tt,
     [{| i_sql := select_sql; i_values := [];
         i_outcome := Failed Scenario.refused |}]).
Proof.
  split.
  - exact (proj1 (driver_failure_is_500 unit Scenario.unreachable tt tt
                    AddUser Scenario.add_aryan insert_sql Scenario.refused
                    eq_refl (conj eq_refl eq_refl) eq_refl)).
  - exact (proj1 (driver_failure_is_500 unit Scenario.unreachable tt tt
                    ListUsers Scenario.get_users select_sql Scenario.refused
                    eq_refl I eq_refl)).
Defined.

(* ------------------------------------------------------------------ *)
(** ** Path identifiers *)

(** C10, as stated, fails: an update whose body does not pass the guard
    is answered 400, whatever the path identifier, and binds nothing. *)
Lemma update_malformed_id_empty_body :
  status (response_of (serve (Engine.exec Engine.plain) UpdateUser
                             Scenario.update_abc_no_body
                             (Some Scenario.two_users))) = 400
  /\ ~ In (status (response_of (serve (Engine.exec Engine.plain) UpdateUser
                                      Scenario.update_abc_no_body
                                      (Some Scenario.two_users))))
          [200; 404; 500]
  /\ issued_of (serve (Engine.exec Engine.plain) UpdateUser
                      Scenario.update_abc_no_body (Some Scenario.two_users)) = [].
Proof.
  split; [reflexivity | split; [| reflexivity]].
  cbn. intros [H | [H | [H | []]]]; discriminate H.
Qed.

(** C10, amended. Neither handler looks at the path identifier.  A delete
    binds the raw string as the only value of its statement and answers
    200, 404 or 500.  An update whose body passes the guard binds the raw
    string as the third value and answers 200, 404 or 500; an update
    whose body does not pass answers 400 and issues nothing. *)
Theorem path_id_is_bound_raw :
  forall (D : Type) (driver : string -> list value -> D -> outcome * D)
         (d : D) (req : request),
    (let x := serve driver DeleteUser req d in
     In (status (response_of x)) [200; 404; 500] /\
     map i_sql (issued_of x) = [delete_sql] /\
     map i_values (issued_of x) = [[JStr (req_id req)]])
    /\
    (let x := serve driver UpdateUser req d in
     let name := get (req_body req) "name" in
     let email := get (req_body req) "email" in
     if truthy name && truthy email then
       In (status (response_of x)) [200; 404; 500] /\
       map i_sql (issued_of x) = [update_sql] /\
       map i_values (issued_of x) = [[name; email; JStr (req_id req)]]
     else
       status (response_of x) = 400 /\ issued_of x = []).
Proof.
  intros D driver d req. split; cbv zeta.
  - served. destruct (driver _ _ d) as [[e | res] d1]; cbn.
    + intuition.
    + destruct (strict_eq_zero _); cbn; intuition.
  - served.
    destruct (truthy (get (req_body req) "name")),
             (truthy (get (req_body req) "email")); cbn [negb orb andb run];
      try (split; reflexivity).
    destruct (driver _ _ d) as [[e | res] d1]; cbn.
    + intuition.
    + destruct (strict_eq_zero _); cbn; intuition.
Qed.

(* ------------------------------------------------------------------ *)
(** ** The reference engine, statement by statement *)

Section EngineFacts.
Import Engine.
Variable dl : dialect.

Lemma exec_create_table : forall values d,
  exec dl create_table_sql values d =
    (Done (ResultSetHeader 0 0),
     Some (match d with Some t => t | None => empty_table end)).
Proof. reflexivity. Qed.

Lemma exec_insert : forall values t,
  exec dl insert_sql values (Some t) = on_table (insert dl values) t.
Proof. reflexivity. Qed.

Lemma exec_select : forall values t,
  exec dl select_sql values (Some t) = on_table (select) t.
Proof. reflexivity. Qed.

Lemma exec_update : forall values t,
  exec dl update_sql values (Some t) = on_table (update dl values) t.
Proof. reflexivity. Qed.

Lemma exec_delete : forall values t,
  exec dl delete_sql values (Some t) = on_table (delete dl values) t.
Proof. reflexivity. Qed.

Lemma insert_accepted : forall n e n1 e1 t,
  column_text dl n = inr n1 -> column_text dl e = inr e1 ->
  exec dl insert_sql [n; e] (Some t) =
    (Done (ResultSetHeader 1 (auto_increment t)),
     Some {| rows := rows t ++
                     [{| id := auto_increment t; name := n1; email := e1 |}];
             auto_increment := auto_increment t + 1 |}).
Proof.
  intros n e n1 e1 t Hn He.
  rewrite exec_insert. unfold on_table, insert. now rewrite Hn, He.
Qed.

End EngineFacts.

(* ------------------------------------------------------------------ *)
(** ** Creating users *)

(** C1. For a body whose name and email are both non-empty (truthy), when
    the driver reports success with insert id [i], add-user answers 200
    with the message "User added successfully!" and [userId] equal to [i].
    On the reference engine, two such requests in a row on the table as
    [CREATE TABLE] made it are answered with ids 1 and 2, and list-users
    then returns the two records, first inserted first. *)
Theorem add_user_reports_generated_id :
  forall (D : Type) (driver : string -> list value -> D -> outcome * D)
         (d d1 : D) (req : request) (a i : Z)
         (dl : Engine.dialect) (req1 req2 req3 : request)
         (n1 e1 n2 e2 : string),
    truthy (get (req_body req) "name") = true ->
    truthy (get (req_body req) "email") = true ->
    driver insert_sql [get (req_body req) "name"; get (req_body req) "email"] d
      = (Done (ResultSetHeader a i), d1) ->
    truthy (get (req_body req1) "name") = true ->
    truthy (get (req_body req1) "email") = true ->
    truthy (get (req_body req2) "name") = true ->
    truthy (get (req_body req2) "email") = true ->
    Engine.column_text dl (get (req_body req1) "name") = inr n1 ->
    Engine.column_text dl (get (req_body req1) "email") = inr e1 ->
    Engine.column_text dl (get (req_body req2) "name") = inr n2 ->
    Engine.column_text dl (get (req_body req2) "email") = inr e2 ->
    (response_of (serve driver AddUser req d) =
       {| status := 200;
          body := JObj [("message", JStr "User added successfully!");
                        ("userId", of_Z i)] |}
     /\ state_of (serve driver AddUser req d) = d1)
    /\
    (response_of
       (serve (Engine.exec dl) AddUser req1
          (snd (Engine.exec dl create_table_sql [] None))) =
       {| status := 200;
          body := JObj [("message", JStr "User added successfully!");
                        ("userId", of_Z 1)] |}
     /\ response_of
          (serve (Engine.exec dl) AddUser req2
             (state_of (serve (Engine.exec dl) AddUser req1
                          (snd (Engine.exec dl create_table_sql [] None))))) =
          {| status := 200;
             body := JObj [("message", JStr "User added successfully!");
                           ("userId", of_Z 2)] |}
     /\ response_of
          (serve (Engine.exec dl) ListUsers req3
             (state_of
                (serve (Engine.exec dl) AddUser req2
                   (state_of (serve (Engine.exec dl) AddUser req1
                                (snd (Engine.exec dl create_table_sql [] None))))))) =
          {| status := 200;
             body := JArr [Engine.row_value {| Engine.id := 1; Engine.name := n1;
                                               Engine.email := e1 |};
                           Engine.row_value {| Engine.id := 2; Engine.name := n2;
                                               Engine.email := e2 |}] |}).
Proof.
  intros D driver d d1 req a i dl req1 req2 req3 n1 e1 n2 e2
         Hn He Hdrv Hn1 He1 Hn2 He2 Hc1 Hc1' Hc2 Hc2'.
  split.
  - served. rewrite (guard_accepts _ _ Hn He). cbn [run]. rewrite Hdrv.
    split; reflexivity.
  - rewrite exec_create_table. cbn [snd].
    served.
    rewrite (guard_accepts _ _ Hn1 He1), (guard_accepts _ _ Hn2 He2).
    cbn [run fst snd].
    rewrite (insert_accepted dl _ _ _ _ _ Hc1 Hc1').
    cbn -[Engine.exec]. split; [reflexivity |].
    rewrite (insert_accepted dl _ _ _ _ _ Hc2 Hc2').
    cbn -[Engine.exec]. split; [reflexivity |].
    rewrite exec_select. reflexivity.
Qed.

Lemma add_user_reports_generated_id_witness :
  (response_of (serve (Engine.exec Engine.plain) AddUser Scenario.add_priya
                      (Some Scenario.one_user)) =
     {| status := 200;
        body := JObj [("message", JStr "User added successfully!");
                      ("userId", of_Z 2)] |}
   /\ state_of (serve (Engine.exec Engine.plain) AddUser Scenario.add_priya
                      (Some Scenario.one_user)) = Some Scenario.two_users)
  /\
  (response_of
     (serve (Engine.exec Engine.plain) AddUser Scenario.add_aryan
        (snd (Engine.exec Engine.plain create_table_sql [] None))) =
     {| status := 200;
        body := JObj [("message", JStr "User added successfully!");
                      ("userId", of_Z 1)] |}
   /\ response_of
        (serve (Engine.exec Engine.plain) AddUser Scenario.add_priya
           (state_of (serve (Engine.exec Engine.plain) AddUser Scenario.add_aryan
                        (snd (Engine.exec Engine.plain create_table_sql [] None))))) =
        {| status := 200;
           body := JObj [("message", JStr "User added successfully!");
                         ("userId", of_Z 2)] |}
   /\ response_of
        (serve (Engine.exec Engine.plain) ListUsers Scenario.get_users
           (state_of
              (serve (Engine.exec Engine.plain) AddUser Scenario.add_priya
                 (state_of (serve (Engine.exec Engine.plain) AddUser
                              Scenario.add_aryan
                              (snd (Engine.exec Engine.plain create_table_sql
                                      [] None))))))) =
        {| status := 200;
           body := JArr [Engine.row_value Scenario.aryan;
                         Engine.row_value Scenario.priya] |}).
Proof.
  apply (add_user_reports_generated_id
           Engine.database (Engine.exec Engine.plain)
           (Some Scenario.one_user) (Some Scenario.two_users)
           Scenario.add_priya 1 2
           Engine.plain Scenario.add_aryan Scenario.add_priya Scenario.get_users
           "Aryan" "aryan@example.com" "Priya" "priya@example.com");
    reflexivity.
Defined.

(* ------------------------------------------------------------------ *)
(** ** Rows and identifiers *)

Section Rows.
Import Engine.

Lemma has_id_spec : forall z r, has_id z r = true <-> id r = z.
Proof. intros z r. unfold has_id. apply Z.eqb_eq. Qed.

Lemma has_id_false : forall z r, has_id z r = false <-> id r <> z.
Proof. intros z r. unfold has_id. apply Z.eqb_neq. Qed.

Lemma no_row_with_id : forall z l,
  ~ In z (map id l) ->
  filter (has_id z) l = [] /\
  filter (fun r => negb (has_id z r)) l = l /\
  existsb (has_id z) l = false.
Proof.
  intros z l. induction l as [| r l IH]; intros Hnot; [now repeat split |].
  cbn in Hnot.
  assert (Hr : has_id z r = false) by (apply has_id_false; tauto).
  destruct IH as (IH1 & IH2 & IH3); [tauto |].
  cbn. rewrite Hr. cbn. rewrite IH1, IH2, IH3. now repeat split.
Qed.

Lemma some_row_with_id : forall z l,
  existsb (has_id z) l = true <-> In z (map id l).
Proof.
  intros z l. rewrite existsb_exists, in_map_iff. split.
  - intros (r & Hin & Hr). exists r. split; [now apply has_id_spec | exact Hin].
  - intros (r & Hr & Hin). exists r. split; [exact Hin | now apply has_id_spec].
Qed.

Lemma one_row_with_id : forall z l,
  NoDup (map id l) -> In z (map id l) ->
  exists u, In u l /\ id u = z /\ filter (has_id z) l = [u] /\
            (forall v, In v l -> id v = z -> v = u).
Proof.
  intros z l. induction l as [| r l IH]; intros Hnd Hin; [destruct Hin |].
  cbn in Hnd, Hin. inversion Hnd as [| x xs Hfresh Hnd']; subst.
  destruct (Z.eq_dec (id r) z) as [Heq | Hne].
  - exists r. subst z.
    destruct (no_row_with_id (id r) l Hfresh) as (Hf & _ & _).
    repeat split.
    + now left.
    + cbn. unfold has_id at 1. rewrite Z.eqb_refl. now rewrite Hf.
    + intros v [-> | Hv] Hid; [reflexivity |].
      exfalso. apply Hfresh. rewrite <- Hid. now apply in_map.
  - destruct Hin as [Hin | Hin]; [contradiction |].
    destruct (IH Hnd' Hin) as (u & Hu & Hid & Hf & Huniq).
    exists u. repeat split; trivial.
    + now right.
    + cbn. apply has_id_false in Hne. now rewrite Hne.
    + intros v [-> | Hv] Hv'; [contradiction | now apply Huniq].
Qed.

Lemma filter_lengths : forall (p : user -> bool) l,
  List.length l =
    (List.length (filter p l) + List.length (filter (fun r => negb (p r)) l))%nat.
Proof.
  intros p l. induction l as [| r l IH]; [reflexivity |].
  cbn. destruct (p r); cbn; lia.
Qed.

Lemma set_fields_id : forall z n e r, id (set_fields z n e r) = id r.
Proof. intros z n e r. unfold set_fields. now destruct (has_id z r). Qed.

Lemma set_fields_ids : forall z n e l,
  map id (map (set_fields z n e) l) = map id l.
Proof.
  intros z n e l. rewrite map_map. apply map_ext. intro r. apply set_fields_id.
Qed.

Lemma set_fields_other : forall z n e r, id r <> z -> set_fields z n e r = r.
Proof.
  intros z n e r Hne. unfold set_fields.
  apply has_id_false in Hne. now rewrite Hne.
Qed.

Lemma set_fields_target : forall z n e r,
  id r = z -> set_fields z n e r = {| id := z; name := n; email := e |}.
Proof.
  intros z n e r Heq. unfold set_fields.
  assert (H : has_id z r = true) by now apply has_id_spec.
  rewrite H. now rewrite Heq.
Qed.

Lemma table_eta : forall t,
  {| rows := rows t; auto_increment := auto_increment t |} = t.
Proof. now intros []. Qed.

(** The invariant holds of the empty table and every statement keeps it. *)
Lemma empty_table_well_formed : well_formed empty_table.
Proof. split; constructor. Qed.

Lemma exec_keeps_well_formed : forall dl sql values t o d,
  well_formed t -> exec dl sql values (Some t) = (o, d) ->
  exists t1, d = Some t1 /\ well_formed t1.
Proof.
  intros dl sql values t o d [Hnd Hlt]. unfold exec.
  assert (Hsame : exists t1, Some t = Some t1 /\ well_formed t1)
    by (exists t; now repeat split).
  destruct (String.eqb sql create_table_sql);
    [intros H; inversion H; subst; exact Hsame |].
  destruct (String.eqb sql insert_sql).
  { unfold on_table, insert.
    destruct values as [| n [| e [| x rest]]];
      try (intros H; inversion H; subst; exact Hsame).
    destruct (column_text dl n), (column_text dl e);
      try (intros H; inversion H; subst; exact Hsame).
    intros H; inversion H; subst. eexists; split; [reflexivity |].
    split; cbn.
    - rewrite map_app. cbn. apply NoDup_app; [exact Hnd | repeat constructor; intros [] |].
      intros z Hz [<- | []]. apply in_map_iff in Hz.
      destruct Hz as (r & Hr & Hin). rewrite Forall_forall in Hlt.
      specialize (Hlt r Hin). lia.
    - apply Forall_app. split.
      + eapply Forall_impl; [| exact Hlt]. cbn. intros; lia.
      + repeat constructor. cbn. lia. }
  destruct (String.eqb sql select_sql);
    [unfold on_table, select; intros H; inversion H; subst; exact Hsame |].
  destruct (String.eqb sql update_sql).
  { unfold on_table, update.
    destruct values as [| n [| e [| [] [| x rest]]]];
      try (intros H; inversion H; subst; exact Hsame).
    destruct (key_of dl s) as [z | | err];
      try (intros H; inversion H; subst; exact Hsame).
    destruct (existsb (has_id z) (rows t));
      try (intros H; inversion H; subst; exact Hsame).
    destruct (column_text dl n), (column_text dl e);
      try (intros H; inversion H; subst; exact Hsame).
    intros H; inversion H; subst. eexists; split; [reflexivity |].
    split; cbn.
    - now rewrite set_fields_ids.
    - apply Forall_map. eapply Forall_impl; [| exact Hlt].
      intros r Hr. now rewrite set_fields_id. }
  destruct (String.eqb sql delete_sql).
  { unfold on_table, delete.
    destruct values as [| [] [| x rest]];
      try (intros H; inversion H; subst; exact Hsame).
    destruct (key_of dl s) as [z | | err];
      try (intros H; inversion H; subst; exact Hsame).
    intros H; inversion H; subst. eexists; split; [reflexivity |].
    split; cbn.
    - clear Hlt H. induction (rows t) as [| r l IH]; [constructor |].
      cbn in *. inversion Hnd; subst. destruct (has_id z r); cbn; auto.
      constructor; auto. intros Hin. apply H1.
      apply in_map_iff in Hin. destruct Hin as (v & Hv & Hin).
      apply filter_In in Hin. rewrite <- Hv. apply in_map. tauto.
    - rewrite Forall_forall in *. intros r Hr.
      apply filter_In in Hr. now apply Hlt. }
  intros H; inversion H; subst; exact Hsame.
Qed.

End Rows.

(* ------------------------------------------------------------------ *)
(** ** Update and delete by identifier *)

Section ByIdentifier.
Import Engine.

(** A mutation aimed at an identifier no row carries leaves the table as
    it was and, when the engine reports success, reports zero rows. *)
Lemma mutation_without_target :
  forall (dl : dialect) (t : table) (r : route) (req : request),
    r = UpdateUser \/ r = DeleteUser ->
    (forall z, key_of dl (req_id req) = KeyInt z -> ~ In z (map id (rows t))) ->
    state_of (serve (exec dl) r req (Some t)) = Some t /\
    (forall i a k,
        In i (issued_of (serve (exec dl) r req (Some t))) ->
        i_outcome i = Done (ResultSetHeader a k) -> a = 0).
Proof.
  intros dl t r req [-> | ->] Hnone; served.
  - destruct (negb _ || negb _); [split; [reflexivity | intros ? ? ? []] |].
    cbn [run]. rewrite exec_update. unfold on_table, update.
    destruct (key_of dl (req_id req)) as [z | | err] eqn:Hk.
    + destruct (no_row_with_id z (rows t) (Hnone z eq_refl)) as (_ & _ & Hex).
      rewrite Hex. cbn. split; [reflexivity |].
      intros i a k [<- | []] H. now inversion H.
    + cbn. split; [reflexivity |].
      intros i a k [<- | []] H. now inversion H.
    + cbn. split; [reflexivity |].
      intros i a k [<- | []] H. inversion H.
  - rewrite exec_delete. unfold on_table, delete.
    destruct (key_of dl (req_id req)) as [z | | err] eqn:Hk.
    + destruct (no_row_with_id z (rows t) (Hnone z eq_refl)) as (Hf & Hkeep & _).
      rewrite Hf, Hkeep, table_eta. cbn. split; [reflexivity |].
      intros i a k [<- | []] H. now inversion H.
    + cbn. split; [reflexivity |].
      intros i a k [<- | []] H. now inversion H.
    + cbn. split; [reflexivity |].
      intros i a k [<- | []] H. inversion H.
Qed.

(** What a delete answered 200 has done to the table. *)
Lemma delete_succeeded :
  forall (dl : dialect) (t : table) (req : request),
    status (response_of (serve (exec dl) DeleteUser req (Some t))) = 200 ->
    exists z,
      key_of dl (req_id req) = KeyInt z /\ In z (map id (rows t)) /\
      state_of (serve (exec dl) DeleteUser req (Some t)) =
        Some {| rows := filter (fun v => negb (has_id z v)) (rows t);
                auto_increment := auto_increment t |}.
Proof.
  intros dl t req. served. rewrite exec_delete. unfold on_table, delete.
  destruct (key_of dl (req_id req)) as [z | | err] eqn:Hk;
    [| cbn; discriminate ..].
  destruct (in_dec Z.eq_dec z (map id (rows t))) as [Hin | Hnot].
  - intros _. exists z. repeat split; trivial.
    cbn. destruct (Z.of_nat _ =? 0); reflexivity.
  - destruct (no_row_with_id z (rows t) Hnot) as (Hf & _ & _).
    rewrite Hf. cbn. discriminate.
Qed.

Lemma deleted_id_is_gone : forall z l,
  ~ In z (map id (filter (fun v => negb (has_id z v)) l)).
Proof.
  intros z l Hin. apply in_map_iff in Hin. destruct Hin as (v & Hv & Hin).
  apply filter_In in Hin. destruct Hin as [_ Hneg].
  apply has_id_spec in Hv. rewrite Hv in Hneg. discriminate.
Qed.

(** A delete aimed at an identifier some row carries is answered 200. *)
Lemma delete_existing :
  forall (dl : dialect) (t : table) (req : request) (z : Z),
    key_of dl (req_id req) = KeyInt z -> In z (map id (rows t)) ->
    response_of (serve (exec dl) DeleteUser req (Some t)) =
      {| status := 200;
         body := JObj [("message", JStr "User deleted successfully!")] |}.
Proof.
  intros dl t req z Hk Hin. served.
  rewrite exec_delete. unfold on_table, delete. rewrite Hk.
  apply in_map_iff in Hin. destruct Hin as (u & Hu & Hin).
  assert (Hf : In u (filter (has_id z) (rows t))).
  { apply filter_In. split; [exact Hin | now apply has_id_spec]. }
  destruct (filter (has_id z) (rows t)) as [| v rest]; [destruct Hf |].
  reflexivity.
Qed.

End ByIdentifier.

(** C3. For an update (whose body passes the guard) or a delete: when
    the driver answers the statement with success and zero affected rows
    the response is 404 "User not found", with a nonzero count it is 200
    with the confirmation message; the statement is sent once and the
    driver's state is the one that call left.  On the reference engine, a
    request whose identifier matches no record leaves the table as it
    was and is answered 404 (or 500 with the engine's message when the
    engine refuses the identifier); a delete of an identifier some record
    carries is answered 200; a delete answered 200 removes the one record
    carrying that identifier and nothing else, and the same delete issued
    again is answered 404 and changes nothing. *)
Theorem missing_target_is_404 :
  forall (D : Type) (driver : string -> list value -> D -> outcome * D)
         (d d1 : D) (dl : Engine.dialect) (t : Engine.table)
         (r : route) (req : request) (a k : Z),
    r = UpdateUser \/ r = DeleteUser ->
    (r = UpdateUser ->
     truthy (get (req_body req) "name") = true /\
     truthy (get (req_body req) "email") = true) ->
    Engine.well_formed t ->
    driver match r with UpdateUser => update_sql | _ => delete_sql end
           (bound_values r req) d = (Done (ResultSetHeader a k), d1) ->
    serve driver r req d =
      (if a =? 0 then
         {| status := 404; body := JObj [("error", JStr "User not found")] |}
       else
         {| status := 200;
            body := JObj [("message",
                           JStr match r with
                                | UpdateUser => "User updated successfully!"
                                | _ => "User deleted successfully!"
                                end)] |},
       d1,
       [{| i_sql := match r with UpdateUser => update_sql | _ => delete_sql end;
           i_values := bound_values r req;
           i_outcome := Done (ResultSetHeader a k) |}])
    /\
    ((forall z, Engine.key_of dl (req_id req) = Engine.KeyInt z ->
                ~ In z (map Engine.id (Engine.rows t))) ->
     state_of (serve (Engine.exec dl) r req (Some t)) = Some t /\
     (response_of (serve (Engine.exec dl) r req (Some t)) =
        {| status := 404; body := JObj [("error", JStr "User not found")] |}
      \/
      (exists e, Engine.key_of dl (req_id req) = Engine.KeyInvalid e /\
                 response_of (serve (Engine.exec dl) r req (Some t)) =
                   {| status := 500;
                      body := JObj [("error", JStr (err_message e))] |})) /\
     (forall i a' k',
         In i (issued_of (serve (Engine.exec dl) r req (Some t))) ->
         i_outcome i = Done (ResultSetHeader a' k') -> a' = 0))
    /\
    (r = DeleteUser ->
     (forall z, Engine.key_of dl (req_id req) = Engine.KeyInt z ->
                In z (map Engine.id (Engine.rows t)) ->
                response_of (serve (Engine.exec dl) r req (Some t)) =
                  {| status := 200;
                     body := JObj [("message",
                                    JStr "User deleted successfully!")] |}) /\
     (status (response_of (serve (Engine.exec dl) r req (Some t))) = 200 ->
      exists (z : Z) (u : Engine.user) (t1 : Engine.table),
        Engine.key_of dl (req_id req) = Engine.KeyInt z /\
        In u (Engine.rows t) /\ Engine.id u = z /\
        state_of (serve (Engine.exec dl) r req (Some t)) = Some t1 /\
        Engine.auto_increment t1 = Engine.auto_increment t /\
        Engine.rows t1 =
          filter (fun v => negb (Engine.has_id z v)) (Engine.rows t) /\
        (forall v, In v (Engine.rows t1) <-> In v (Engine.rows t) /\ v <> u) /\
        List.length (Engine.rows t) = S (List.length (Engine.rows t1)) /\
        response_of (serve (Engine.exec dl) DeleteUser req (Some t1)) =
          {| status := 404; body := JObj [("error", JStr "User not found")] |} /\
        state_of (serve (Engine.exec dl) DeleteUser req (Some t1)) = Some t1)).
Proof.
  intros D driver d d1 dl t r req a k Hr Hguard [Hnd Hlt] Hdrv.
  split; [| split].
  - destruct Hr as [-> | ->]; cbn [bound_values] in Hdrv; served.
    + destruct (Hguard eq_refl) as [Hn He].
      rewrite (guard_accepts _ _ Hn He). cbn [run]. rewrite Hdrv.
      cbn [affectedRows_of]. rewrite strict_eq_zero_of_Z.
      destruct (a =? 0); reflexivity.
    + rewrite Hdrv. cbn [affectedRows_of]. rewrite strict_eq_zero_of_Z.
      destruct (a =? 0); reflexivity.
  - intros Hnone.
    destruct (mutation_without_target dl t r req Hr Hnone) as [Hstate Hzero].
    split; [exact Hstate |].
    split; [| exact Hzero].
    destruct Hr as [-> | ->]; served.
    + destruct (Hguard eq_refl) as [Hn He].
      rewrite (guard_accepts _ _ Hn He). cbn [run].
      rewrite exec_update. unfold Engine.on_table, Engine.update.
      destruct (Engine.key_of dl (req_id req)) as [z | | err] eqn:Hk.
      * destruct (no_row_with_id z (Engine.rows t) (Hnone z eq_refl))
          as (_ & _ & Hex).
        rewrite Hex. left. reflexivity.
      * left. reflexivity.
      * right. exists err. split; reflexivity.
    + rewrite exec_delete. unfold Engine.on_table, Engine.delete.
      destruct (Engine.key_of dl (req_id req)) as [z | | err] eqn:Hk.
      * destruct (no_row_with_id z (Engine.rows t) (Hnone z eq_refl))
          as (Hf & _ & _).
        rewrite Hf. left. reflexivity.
      * left. reflexivity.
      * right. exists err. split; reflexivity.
  - intros ->. split; [intros z Hk Hin; now apply (delete_existing dl t req z) |].
    intros H200.
    destruct (delete_succeeded dl t req H200) as (z & Hk & Hin & Hstate).
    destruct (one_row_with_id z (Engine.rows t) Hnd Hin)
      as (u & Hu & Hid & Hf & Huniq).
    exists z, u, {| Engine.rows := filter (fun v => negb (Engine.has_id z v))
                                          (Engine.rows t);
                   Engine.auto_increment := Engine.auto_increment t |}.
    repeat split; trivial.
    + apply filter_In in H. tauto.
    + apply filter_In in H. destruct H as [Hv Hneg]. intros ->.
      apply has_id_spec in Hid. cbn in Hneg. rewrite Hid in Hneg. discriminate.
    + intros [Hv Hne]. cbn. apply filter_In. split; [exact Hv |].
      destruct (Engine.has_id z v) eqn:E; [| reflexivity].
      exfalso. apply Hne. apply Huniq; [exact Hv | now apply has_id_spec].
    + cbn. rewrite (filter_lengths (Engine.has_id z) (Engine.rows t)), Hf.
      reflexivity.
    + served. rewrite exec_delete. unfold Engine.on_table, Engine.delete.
      rewrite Hk. cbn [Engine.rows].
      destruct (no_row_with_id z _ (deleted_id_is_gone z (Engine.rows t)))
        as (Hf' & _ & _).
      rewrite Hf'. reflexivity.
    + served. rewrite exec_delete. unfold Engine.on_table, Engine.delete.
      rewrite Hk. cbn [Engine.rows Engine.auto_increment].
      destruct (no_row_with_id z _ (deleted_id_is_gone z (Engine.rows t)))
        as (Hf' & Hkeep & _).
      rewrite Hf', Hkeep. reflexivity.
Qed.

Lemma two_users_well_formed : Engine.well_formed Scenario.two_users.
Proof.
  split; cbn.
  - repeat constructor; cbn; intuition discriminate.
  - repeat constructor; cbn; lia.
Defined.

Lemma missing_target_is_404_witness :
  (serve (Engine.exec Engine.plain) UpdateUser Scenario.update_7
         (Some Scenario.two_users) =
     ({| status := 404; body := JObj [("error", JStr "User not found")] |},
      Some Scenario.two_users,
      [{| i_sql := update_sql;
          i_values := [JStr "Nobody"; JStr "nobody@example.com"; JStr "7"];
          i_outcome := Done (ResultSetHeader 0 0) |}]))
  /\
  (response_of (serve (Engine.exec Engine.plain) DeleteUser Scenario.delete_2
                      (Some Scenario.two_users)) =
     {| status := 200;
        body := JObj [("message", JStr "User deleted successfully!")] |})
  /\
  (exists t1 : Engine.table,
      state_of (serve (Engine.exec Engine.plain) DeleteUser Scenario.delete_2
                      (Some Scenario.two_users)) = Some t1 /\
      Engine.rows t1 = [Scenario.aryan] /\
      response_of (serve (Engine.exec Engine.plain) DeleteUser Scenario.delete_2
                         (Some t1)) =
        {| status := 404; body := JObj [("error", JStr "User not found")] |} /\
      state_of (serve (Engine.exec Engine.plain) DeleteUser Scenario.delete_2
                      (Some t1)) = Some t1).
Proof.
  split.
  { exact (proj1 (missing_target_is_404
                    Engine.database (Engine.exec Engine.plain)
                    (Some Scenario.two_users) (Some Scenario.two_users)
                    Engine.plain Scenario.two_users
                    UpdateUser Scenario.update_7 0 0
                    (or_introl eq_refl) (fun _ => conj eq_refl eq_refl)
                    two_users_well_formed eq_refl)). }
  destruct (missing_target_is_404
              Engine.database (Engine.exec Engine.plain)
              (Some Scenario.two_users)
              (Some {| Engine.rows := [Scenario.aryan];
                       Engine.auto_increment := 3 |})
              Engine.plain Scenario.two_users
              DeleteUser Scenario.delete_2 1 0
              (or_intror eq_refl)
              (fun H : DeleteUser = UpdateUser =>
                 match H in (_ = x)
                       return match x with UpdateUser => _ | _ => True end
                 with eq_refl => I end)
              two_users_well_formed eq_refl)
    as (Hanswer & _ & Hdelete).
  destruct (Hdelete eq_refl) as [Hexisting Hafter].
  split; [exact (Hexisting 2 eq_refl (or_intror (or_introl eq_refl))) |].
  destruct (Hafter eq_refl)
    as (z & u & t1 & Hk & _ & _ & Hstate & _ & Hrows & _ & _ & Hagain & Hsame).
  exists t1. split; [exact Hstate |].
  split; [| split; [exact Hagain | exact Hsame]].
  rewrite Hrows. injection Hk as <-. reflexivity.
Defined.

(* ------------------------------------------------------------------ *)
(** ** Update in place *)

Section UpdateInPlace.
Import Engine.

Lemma Forall2_map_right : forall (A : Type) (R : A -> A -> Prop) (f : A -> A) l,
  (forall x, R x (f x)) -> Forall2 R l (map f l).
Proof.
  intros A R f l HR. induction l as [| x l IH]; cbn; constructor; auto.
Qed.

(** What an update answered 200 has done to the table. *)
Lemma update_succeeded :
  forall (dl : dialect) (t : table) (req : request),
    status (response_of (serve (exec dl) UpdateUser req (Some t))) = 200 ->
    exists z n1 e1,
      key_of dl (req_id req) = KeyInt z /\ In z (map id (rows t)) /\
      column_text dl (get (req_body req) "name") = inr n1 /\
      column_text dl (get (req_body req) "email") = inr e1 /\
      state_of (serve (exec dl) UpdateUser req (Some t)) =
        Some {| rows := map (set_fields z n1 e1) (rows t);
                auto_increment := auto_increment t |}.
Proof.
  intros dl t req. served.
  destruct (negb _ || negb _); [cbn; discriminate |].
  cbn [run]. rewrite exec_update. unfold on_table, update.
  destruct (key_of dl (req_id req)) as [z | | err] eqn:Hk;
    [| cbn; discriminate ..].
  destruct (existsb (has_id z) (rows t)) eqn:Hex; [| cbn; discriminate].
  apply some_row_with_id in Hex.
  destruct (column_text dl (get (req_body req) "name")) as [err | n1];
    [cbn; discriminate |].
  destruct (column_text dl (get (req_body req) "email")) as [err | e1];
    [cbn; discriminate |].
  intros _. exists z, n1, e1. repeat split; trivial.
  cbn. destruct (Z.of_nat _ =? 0); reflexivity.
Qed.

(** An update of an existing identifier with values the engine accepts
    is answered 200. *)
Lemma update_existing :
  forall (dl : dialect) (t : table) (req : request) (z : Z) (n1 e1 : string),
    truthy (get (req_body req) "name") = true ->
    truthy (get (req_body req) "email") = true ->
    key_of dl (req_id req) = KeyInt z -> In z (map id (rows t)) ->
    column_text dl (get (req_body req) "name") = inr n1 ->
    column_text dl (get (req_body req) "email") = inr e1 ->
    response_of (serve (exec dl) UpdateUser req (Some t)) =
      {| status := 200;
         body := JObj [("message", JStr "User updated successfully!")] |}.
Proof.
  intros dl t req z n1 e1 Hn He Hk Hin Hcn Hce. served.
  rewrite (guard_accepts _ _ Hn He). cbn [run].
  rewrite exec_update. unfold on_table, update.
  rewrite Hk, Hcn, Hce.
  apply some_row_with_id in Hin as Hex. rewrite Hex.
  apply in_map_iff in Hin. destruct Hin as (u & Hu & Hin).
  assert (Hpos : filter (has_id z) (rows t) <> []).
  { intros Hnil. assert (Hf : In u (filter (has_id z) (rows t))).
    { apply filter_In. split; [exact Hin | now apply has_id_spec]. }
    rewrite Hnil in Hf. destruct Hf. }
  destruct (filter (has_id z) (rows t)) as [| v rest]; [congruence |].
  reflexivity.
Qed.

End UpdateInPlace.

(** C4. On the reference engine, an update answered 200 found a record
    with the path's identifier; afterwards the table holds the same
    records in the same places with the same identifiers, the records
    carrying another identifier are exactly as before, the record
    carrying this one has the new name and email, and list-users returns
    the table so changed.  (A 200 answer implies that the body passed the
    guard; [update_existing] is the converse: an existing identifier with
    a valid body whose values the engine accepts is answered 200.) *)
Theorem update_changes_only_target :
  forall (dl : Engine.dialect) (t : Engine.table) (req req' : request),
    Engine.well_formed t ->
    status (response_of (serve (Engine.exec dl) UpdateUser req (Some t))) = 200 ->
    exists (z : Z) (n1 e1 : string) (u : Engine.user) (t1 : Engine.table),
      Engine.key_of dl (req_id req) = Engine.KeyInt z /\
      Engine.column_text dl (get (req_body req) "name") = inr n1 /\
      Engine.column_text dl (get (req_body req) "email") = inr e1 /\
      In u (Engine.rows t) /\ Engine.id u = z /\
      (forall v, In v (Engine.rows t) -> Engine.id v = z -> v = u) /\
      state_of (serve (Engine.exec dl) UpdateUser req (Some t)) = Some t1 /\
      Engine.auto_increment t1 = Engine.auto_increment t /\
      Forall2 (fun old new =>
                 Engine.id new = Engine.id old /\
                 (Engine.id old <> z -> new = old) /\
                 (Engine.id old = z ->
                  Engine.name new = n1 /\ Engine.email new = e1))
              (Engine.rows t) (Engine.rows t1) /\
      response_of (serve (Engine.exec dl) ListUsers req' (Some t1)) =
        {| status := 200;
           body := JArr (map Engine.row_value (Engine.rows t1)) |}.
Proof.
  intros dl t req req' [Hnd Hlt] H200.
  destruct (update_succeeded dl t req H200)
    as (z & n1 & e1 & Hk & Hin & Hcn & Hce & Hstate).
  destruct (one_row_with_id z (Engine.rows t) Hnd Hin)
    as (u & Hu & Hid & _ & Huniq).
  exists z, n1, e1, u,
    {| Engine.rows := map (Engine.set_fields z n1 e1) (Engine.rows t);
       Engine.auto_increment := Engine.auto_increment t |}.
  repeat split; trivial.
  cbn [Engine.rows]. apply Forall2_map_right. intros x.
  split; [apply set_fields_id | split; [apply set_fields_other |]].
  intros Hx. now rewrite (set_fields_target z n1 e1 x Hx).
Qed.

Lemma update_changes_only_target_witness :
  status (response_of (serve (Engine.exec Engine.plain) UpdateUser
                             Scenario.update_1 (Some Scenario.two_users))) = 200 /\
  exists t1 : Engine.table,
    state_of (serve (Engine.exec Engine.plain) UpdateUser Scenario.update_1
                    (Some Scenario.two_users)) = Some t1 /\
    Engine.rows t1 = [Scenario.aryan_kumar; Scenario.priya] /\
    response_of (serve (Engine.exec Engine.plain) ListUsers Scenario.get_users
                       (Some t1)) =
      {| status := 200; body := JArr (map Engine.row_value (Engine.rows t1)) |}.
Proof.
  split; [reflexivity |].
  destruct (update_changes_only_target
              Engine.plain Scenario.two_users Scenario.update_1
              Scenario.get_users two_users_well_formed eq_refl)
    as (z & n1 & e1 & u & t1 & _ & _ & _ & _ & _ & _ & Hstate & _ & _ & Hlist).
  exists t1. split; [exact Hstate |]. split; [| exact Hlist].
  injection Hstate as <-. reflexivity.
Defined.

(* ------------------------------------------------------------------ *)
(** ** The retry cycle *)

Section RetryCycle.
Import Lifecycle.

Lemma mem_In : forall c l, mem c l = true <-> In c l.
Proof.
  intros c l. unfold mem. rewrite existsb_exists. split.
  - intros (x & Hx & Heq). apply Nat.eqb_eq in Heq. now subst.
  - intros Hin. exists c. split; [exact Hin | apply Nat.eqb_refl].
Qed.

Lemma attempts_app : forall a b,
  attempts (a ++ b) = (attempts a + attempts b)%nat.
Proof. intros a b. unfold attempts. now rewrite filter_app, length_app. Qed.

Lemma delays_app : forall a b, delays (a ++ b) = delays a ++ delays b.
Proof.
  intros a b. induction a as [| x a IH]; [reflexivity |].
  destruct x; cbn; now rewrite ?IH.
Qed.

(** One failed attempt and the timer it set, from any state in which the
    attempt on [c] is pending. *)
Lemma failure_round : forall (st : manager) (c : nat) (e : error),
  In c (connecting st) ->
  exists st2,
    run_events [ConnectDone c (Some e); TimerFired] st = Some st2 /\
    created st2 = S (created st) /\
    db st2 = Some (created st) /\
    In (created st) (connecting st2) /\
    List.length (timers st2) = List.length (timers st) /\
    attempts (trace st2) = S (attempts (trace st)) /\
    delays (trace st2) = delays (trace st) ++ [5000].
Proof.
  intros st c e Hin. apply mem_In in Hin.
  cbn [run_events step]. rewrite Hin. cbn.
  destruct (timers st ++ [5000]) as [| d rest] eqn:Ht.
  - destruct (timers st); discriminate.
  - eexists. split; [reflexivity |]. cbn -[attempts delays String.append].
    repeat split.
    + apply in_or_app. right. now left.
    + assert (Hl : List.length (timers st ++ [5000]) = List.length (d :: rest))
        by now rewrite Ht.
      rewrite length_app in Hl. cbn in Hl. lia.
    + rewrite !attempts_app. cbn. lia.
    + rewrite !delays_app. cbn. now rewrite !app_nil_r.
Qed.

Lemma run_events_app : forall a b st,
  run_events (a ++ b) st =
    match run_events a st with
    | Some st1 => run_events b st1
    | None => None
    end.
Proof.
  intros a. induction a as [| ev a IH]; intros b st; [reflexivity |].
  cbn. destruct (step ev st); [apply IH | reflexivity].
Qed.

(** Any number of failures in a row: each is followed by one more
    attempt, and every timeout is set to 5000 ms. *)
Lemma failures_are_retried : forall (errs : list error) (st : manager) (c : nat),
  In c (connecting st) ->
  exists st1,
    run_events (failures errs c (created st)) st = Some st1 /\
    created st1 = (created st + List.length errs)%nat /\
    List.length (timers st1) = List.length (timers st) /\
    attempts (trace st1) = (attempts (trace st) + List.length errs)%nat /\
    delays (trace st1) = delays (trace st) ++ repeat 5000 (List.length errs) /\
    match errs with
    | [] => st1 = st
    | _ :: _ => db st1 = Some (pred (created st1)) /\
                In (pred (created st1)) (connecting st1)
    end.
Proof.
  induction errs as [| e errs IH]; intros st c Hin.
  - exists st. cbn. rewrite Nat.add_0_r, app_nil_r. now repeat split.
  - destruct (failure_round st c e Hin)
      as (st2 & Hrun & Hcr & Hdb & Hpend & Htm & Hat & Hdl).
    destruct (IH st2 (created st) Hpend)
      as (st1 & Hrun1 & Hcr1 & Htm1 & Hat1 & Hdl1 & Hlast).
    exists st1.
    change (failures (e :: errs) c (created st))
      with ([ConnectDone c (Some e); TimerFired] ++
            failures errs (created st) (S (created st))).
    rewrite run_events_app, Hrun. rewrite <- Hcr. rewrite Hrun1.
    split; [reflexivity |].
    split; [cbn; lia |].
    split; [congruence |].
    split; [cbn; lia |].
    split.
    { rewrite Hdl1, Hdl, <- app_assoc. reflexivity. }
    destruct errs as [| e' errs'].
    + subst st1. rewrite Hcr. cbn. now split.
    + exact Hlast.
Qed.

End RetryCycle.

(** C6. A failed connection attempt sets one timeout of 5000 ms for
    [connectWithRetry] and makes no attempt before it; when the timeout
    fires the next attempt is made.  From start-up, after any number [n]
    of failures in a row the manager has made [n + 1] attempts, the last
    one pending on the current handle, and the [n] timeouts it set were
    all of 5000 ms: no bound on [n], no growth of the delay. *)
Theorem retry_is_fixed_and_unbounded :
  (forall (st : Lifecycle.manager) (c : nat) (e : error),
      Lifecycle.step (Lifecycle.ConnectDone c (Some e)) st =
        if Lifecycle.mem c (Lifecycle.connecting st) then
          Some (Lifecycle.setTimeout 5000
                  (Lifecycle.console_log2
                     "MySQL not ready, retrying in 5 seconds..."
                     (err_message e)
                     (Lifecycle.set_connecting
                        (Lifecycle.drop c (Lifecycle.connecting st)) st)))
        else None)
  /\
  (forall (st : Lifecycle.manager) (d : Z) (rest : list Z),
      Lifecycle.step Lifecycle.TimerFired (Lifecycle.set_timers (d :: rest) st) =
        Some (Lifecycle.connectWithRetry (Lifecycle.set_timers rest st)))
  /\
  (forall errs : list error,
      exists st : Lifecycle.manager,
        Lifecycle.run_events (Lifecycle.failures errs 0 1) Lifecycle.startup
          = Some st /\
        Lifecycle.attempts (Lifecycle.trace st) = S (List.length errs) /\
        Lifecycle.delays (Lifecycle.trace st) = repeat 5000 (List.length errs) /\
        Lifecycle.db st = Some (List.length errs) /\
        In (List.length errs) (Lifecycle.connecting st) /\
        Lifecycle.timers st = []).
Proof.
  split; [| split].
  - intros st c e. reflexivity.
  - intros st d rest. reflexivity.
  - intros errs.
    destruct (failures_are_retried errs Lifecycle.startup 0%nat)
      as (st & Hrun & Hcr & Htm & Hat & Hdl & Hlast); [now left |].
    exists st. cbn in Hrun, Hcr, Htm, Hat, Hdl.
    split; [exact Hrun |].
    split; [exact Hat |].
    split; [exact Hdl |].
    destruct errs as [| e errs].
    + subst st. cbn. repeat split. now left.
    + destruct Hlast as [Hdb Hpend]. rewrite Hcr in Hdb, Hpend. cbn in Hdb, Hpend.
      repeat split; trivial.
      destruct (Lifecycle.timers st); [reflexivity | discriminate].
Qed.

(** C7. When the error listener of a connection is called, the manager
    logs the message; if the error's code is PROTOCOL_CONNECTION_LOST it
    then calls [connectWithRetry], the function start-up calls, and from
    there failures are retried as at start-up; for any other code it does
    nothing more than log. *)
Theorem connection_lost_reenters_cycle :
  forall (st : Lifecycle.manager) (c : nat) (e : error),
    In c (Lifecycle.listening st) ->
    Lifecycle.startup = Lifecycle.connectWithRetry Lifecycle.boot
    /\
    Lifecycle.step (Lifecycle.ErrorEvent c e) st =
      Some (if Lifecycle.code_is e "PROTOCOL_CONNECTION_LOST"
            then Lifecycle.connectWithRetry
                   (Lifecycle.console_log2 "MySQL connection error:"
                      (err_message e) st)
            else Lifecycle.console_log2 "MySQL connection error:"
                   (err_message e) st)
    /\
    (if Lifecycle.code_is e "PROTOCOL_CONNECTION_LOST" then
       forall errs : list error,
       exists st1 : Lifecycle.manager,
         Lifecycle.run_events
           (Lifecycle.ErrorEvent c e ::
            Lifecycle.failures errs (Lifecycle.created st)
                               (S (Lifecycle.created st))) st = Some st1 /\
         Lifecycle.attempts (Lifecycle.trace st1) =
           (Lifecycle.attempts (Lifecycle.trace st) + 1 + List.length errs)%nat /\
         Lifecycle.delays (Lifecycle.trace st1) =
           Lifecycle.delays (Lifecycle.trace st) ++ repeat 5000 (List.length errs)
     else
       exists st1 : Lifecycle.manager,
         Lifecycle.step (Lifecycle.ErrorEvent c e) st = Some st1 /\
         Lifecycle.trace st1 =
           Lifecycle.trace st ++
           [Lifecycle.Log ("MySQL connection error:" ++ " " ++ err_message e)%string] /\
         Lifecycle.db st1 = Lifecycle.db st /\
         Lifecycle.created st1 = Lifecycle.created st /\
         Lifecycle.connecting st1 = Lifecycle.connecting st /\
         Lifecycle.timers st1 = Lifecycle.timers st).
Proof.
  intros st c e Hin. apply mem_In in Hin.
  split; [reflexivity |].
  split.
  - cbn [Lifecycle.step]. rewrite Hin. reflexivity.
  - destruct (Lifecycle.code_is e "PROTOCOL_CONNECTION_LOST") eqn:Hcode.
    + intros errs.
      set (st0 := Lifecycle.connectWithRetry
                    (Lifecycle.console_log2 "MySQL connection error:"
                       (err_message e) st)).
      destruct (failures_are_retried errs st0 (Lifecycle.created st))
        as (st1 & Hrun & _ & _ & Hat & Hdl & _).
      { subst st0. cbn. apply in_or_app. right. now left. }
      exists st1. cbn [Lifecycle.run_events Lifecycle.step].
      rewrite Hin. unfold Lifecycle.error_listener. rewrite Hcode.
      fold st0. split; [exact Hrun |].
      split.
      * rewrite Hat. subst st0.
        cbn -[Lifecycle.attempts Lifecycle.delays String.append].
        rewrite !attempts_app. cbn. lia.
      * rewrite Hdl. subst st0.
        cbn -[Lifecycle.attempts Lifecycle.delays String.append].
        rewrite !delays_app. cbn. now rewrite !app_nil_r.
    + eexists. cbn [Lifecycle.step]. rewrite Hin.
      unfold Lifecycle.error_listener. rewrite Hcode.
      split; [reflexivity |]. now repeat split.
Qed.

Lemma connection_lost_reenters_cycle_witness :
  In 0%nat (Lifecycle.listening Scenario.connected) /\
  Lifecycle.step (Lifecycle.ErrorEvent 0 Scenario.connection_lost)
                 Scenario.connected =
    Some (Lifecycle.connectWithRetry
            (Lifecycle.console_log2 "MySQL connection error:"
               (err_message Scenario.connection_lost) Scenario.connected)).
Proof.
  assert (H : In 0%nat (Lifecycle.listening Scenario.connected))
    by (left; reflexivity).
  split; [exact H |].
  exact (proj1 (proj2 (connection_lost_reenters_cycle
                         Scenario.connected 0%nat Scenario.connection_lost H))).
Defined.

(* ------------------------------------------------------------------ *)
(** ** The README walk-through, end to end *)

(** Create the table, add Aryan and Priya, rename user 1, delete user 2,
    list: one record is left, with id 1 and the new name and email. *)
Example readme_walkthrough :
  let run1 := fun r req d => state_of (serve (Engine.exec Engine.plain) r req d) in
  let d0 := snd (Engine.exec Engine.plain create_table_sql [] None) in
  let d1 := run1 AddUser Scenario.add_aryan d0 in
  let d2 := run1 AddUser Scenario.add_priya d1 in
  let d3 := run1 UpdateUser Scenario.update_1 d2 in
  let d4 := run1 DeleteUser Scenario.delete_2 d3 in
  d2 = Some Scenario.two_users /\
  status (response_of (serve (Engine.exec Engine.plain) UpdateUser
                             Scenario.update_1 d2)) = 200 /\
  status (response_of (serve (Engine.exec Engine.plain) DeleteUser
                             Scenario.delete_2 d3)) = 200 /\
  response_of (serve (Engine.exec Engine.plain) ListUsers Scenario.get_users d4) =
    {| status := 200; body := JArr [Engine.row_value Scenario.aryan_kumar] |}.
Proof. cbv zeta. repeat split; reflexivity. Qed.

(* ------------------------------------------------------------------ *)
(** ** What a response tells about the request *)

(** X1. Each route answers with a status from its own short list, for
    every request and whatever the driver does. *)
Theorem status_codes_by_route :
  forall (D : Type) (driver : string -> list value -> D -> outcome * D)
         (d : D) (r : route) (req : request),
    In (status (response_of (serve driver r req d)))
       match r with
       | Health => [200]
       | CreateTable | ListUsers => [200; 500]
       | AddUser => [200; 400; 500]
       | UpdateUser => [200; 400; 404; 500]
       | DeleteUser => [200; 404; 500]
       end.
Proof.
  intros D driver d r req. destruct r; handler_cases driver d; tauto.
Qed.

(** X2. A request reaches the driver exactly when its route sends a
    statement and, for add-user and update-user, both name and email are
    truthy; it then sends that one statement with the route's values, and
    the driver's state afterwards is the one that single call returned.
    Otherwise nothing is sent and the state is untouched. *)
Theorem one_statement_per_accepted_request :
  forall (D : Type) (driver : string -> list value -> D -> outcome * D)
         (d : D) (r : route) (req : request),
    match statement_of r with
    | None =>
        issued_of (serve driver r req d) = [] /\
        state_of (serve driver r req d) = d
    | Some sql =>
        if match r with
           | AddUser | UpdateUser =>
               truthy (get (req_body req) "name") &&
               truthy (get (req_body req) "email")
           | _ => true
           end
        then
          issued_of (serve driver r req d) =
            [{| i_sql := sql; i_values := bound_values r req;
                i_outcome := fst (driver sql (bound_values r req) d) |}] /\
          state_of (serve driver r req d) =
            snd (driver sql (bound_values r req) d)
        else
          issued_of (serve driver r req d) = [] /\
          state_of (serve driver r req d) = d
    end.
Proof.
  intros D driver d r req.
  destruct r; cbn [statement_of bound_values]; handler_cases driver d;
    repeat match goal with
           | H : driver _ _ _ = _ |- _ => rewrite H; clear H
           end;
    cbn; split; reflexivity.
Qed.



(** X4. A 500 is only ever the report of a driver error: the request sent
    one statement, the driver called back with an error, and the body is
    that error's message. *)
Theorem status_500_means_driver_error :
  forall (D : Type) (driver : string -> list value -> D -> outcome * D)
         (d : D) (r : route) (req : request),
    status (response_of (serve driver r req d)) = 500 ->
    exists (i : issued) (e : error),
      issued_of (serve driver r req d) = [i] /\
      i_outcome i = Failed e /\
      body (response_of (serve driver r req d)) =
        JObj [("error", JStr (err_message e))].
Proof.
  intros D driver d r req.
  destruct r; handler_cases driver d; intros H; try discriminate H;
    eexists; eexists; repeat split.
Qed.

Lemma status_500_means_driver_error_witness :
  exists (i : issued) (e : error),
    issued_of (serve Scenario.unreachable DeleteUser Scenario.delete_2 tt) = [i] /\
    i_outcome i = Failed e /\
    body (response_of (serve Scenario.unreachable DeleteUser Scenario.delete_2 tt)) =
      JObj [("error", JStr (err_message e))].
Proof.
  apply status_500_means_driver_error. reflexivity.
Defined.

(** X5. A 404 comes only from update-user or delete-user, and only when
    the driver reported success with exactly zero affected rows; the body
    is then "User not found". *)
Theorem status_404_means_zero_rows :
  forall (D : Type) (driver : string -> list value -> D -> outcome * D)
         (d : D) (r : route) (req : request),
    status (response_of (serve driver r req d)) = 404 ->
    (r = UpdateUser \/ r = DeleteUser) /\
    (exists (i : issued) (k : Z),
        issued_of (serve driver r req d) = [i] /\
        i_outcome i = Done (ResultSetHeader 0 k)) /\
    body (response_of (serve driver r req d)) =
      JObj [("error", JStr "User not found")].
Proof.
  intros D driver d r req.
  destruct r; handler_cases driver d; intros H; try discriminate H;
    (split; [tauto |]); (split; [| reflexivity]);
    match goal with
    | Hz : strict_eq_zero (affectedRows_of ?res) = true |- _ =>
        destruct res as [a k | rows]; cbn in Hz; [| discriminate Hz];
        apply Z.eqb_eq in Hz; cbn in Hz; subst a
    end;
    eexists; eexists; split; reflexivity.
Qed.

Lemma status_404_means_zero_rows_witness :
  (DeleteUser = UpdateUser \/ DeleteUser = DeleteUser) /\
  (exists (i : issued) (k : Z),
      issued_of (serve (Engine.exec Engine.plain) DeleteUser Scenario.delete_2
                       (Some Scenario.one_user)) = [i] /\
      i_outcome i = Done (ResultSetHeader 0 k)) /\
  body (response_of (serve (Engine.exec Engine.plain) DeleteUser Scenario.delete_2
                           (Some Scenario.one_user))) =
    JObj [("error", JStr "User not found")].
Proof.
  apply status_404_means_zero_rows. reflexivity.
Defined.

(** X6. A 400 comes only from add-user or update-user, and only when name
    or email is falsy; nothing was sent to the driver and its state is
    what it was. *)
Theorem status_400_means_rejected_body :
  forall (D : Type) (driver : string -> list value -> D -> outcome * D)
         (d : D) (r : route) (req : request),
    status (response_of (serve driver r req d)) = 400 ->
    (r = AddUser \/ r = UpdateUser) /\
    (truthy (get (req_body req) "name") = false \/
     truthy (get (req_body req) "email") = false) /\
    issued_of (serve driver r req d) = [] /\
    state_of (serve driver r req d) = d.
Proof.
  intros D driver d r req.
  destruct r; handler_cases driver d; intros H; try discriminate H;
    repeat split; tauto.
Qed.

Lemma status_400_means_rejected_body_witness :
  (UpdateUser = AddUser \/ UpdateUser = UpdateUser) /\
  (truthy (get (req_body Scenario.update_abc_no_body) "name") = false \/
   truthy (get (req_body Scenario.update_abc_no_body) "email") = false) /\
  issued_of (serve Scenario.unreachable UpdateUser Scenario.update_abc_no_body tt) = [] /\
  state_of (serve Scenario.unreachable UpdateUser Scenario.update_abc_no_body tt) = tt.
Proof.
  apply status_400_means_rejected_body. reflexivity.
Defined.

(* ------------------------------------------------------------------ *)
(** ** The manager over any sequence of callbacks *)

Section ManagerInvariant.
Import Lifecycle Accounting.

Lemma In_drop : forall c x l, In x (drop c l) -> In x l /\ x <> c.
Proof.
  intros c x l H. unfold drop in H. apply filter_In in H.
  destruct H as [Hin Hneq]. split; [exact Hin |].
  intros ->. rewrite Nat.eqb_refl in Hneq. discriminate.
Qed.

Lemma In_drop_one : forall c x l, In x (drop_one c l) -> In x l.
Proof.
  intros c x l. induction l as [| y l IH]; cbn; [tauto |].
  destruct (Nat.eqb c y); cbn; tauto.
Qed.

Lemma NoDup_drop : forall c l, NoDup l -> NoDup (drop c l).
Proof. intros c l H. unfold drop. now apply NoDup_filter. Qed.

Lemma queries_app : forall a b, queries (a ++ b) = (queries a + queries b)%nat.
Proof. intros a b. unfold queries. now rewrite filter_app, length_app. Qed.

Lemma startup_coherent : coherent startup.
Proof.
  unfold coherent. cbn.
  repeat split; try lia; try (repeat constructor; cbn; tauto);
    cbn in *; intuition lia.
Qed.

Lemma connectWithRetry_coherent : forall st,
  coherent st -> coherent (connectWithRetry st).
Proof.
  intros st (Hdb & Hpos & Hlis & Hnd & Hcon & Hcre & Htm & Hdl & Hat).
  unfold coherent. cbn -[attempts delays seq].
  repeat split; trivial.
  - lia.
  - rewrite seq_S, Hlis. reflexivity.
  - apply NoDup_app; [exact Hnd | repeat constructor; intros [] |].
    intros x Hx [<- | []]. apply Hcon in Hx. lia.
  - intros c Hc. apply in_app_or in Hc. destruct Hc as [Hc | [<- | []]].
    + apply Hcon in Hc. lia.
    + lia.
  - intros c Hc. apply Hcre in Hc. lia.
  - rewrite delays_app. cbn. now rewrite app_nil_r.
  - rewrite attempts_app, Hat. cbn. lia.
Qed.

Lemma emit_logs_coherent : forall st lines,
  coherent st -> coherent (emit (map Log lines) st).
Proof.
  intros st lines (Hdb & Hpos & Hlis & Hnd & Hcon & Hcre & Htm & Hdl & Hat).
  assert (Hd : delays (map Log lines) = [])
    by (induction lines; cbn; auto).
  assert (Ha : attempts (map Log lines) = 0%nat)
    by (unfold attempts; induction lines; cbn; auto).
  unfold coherent. cbn -[attempts delays seq].
  repeat split; trivial.
  - now rewrite delays_app, Hd, app_nil_r.
  - rewrite attempts_app, Ha. lia.
Qed.

Lemma step_coherent : forall ev st st1,
  coherent st -> step ev st = Some st1 -> coherent st1.
Proof.
  intros ev st st1 Hco Hstep.
  destruct ev as [c err | c e | | c err]; cbn [step] in Hstep.
  - destruct (mem c (connecting st)); [| discriminate].
    assert (Hco1 : coherent (set_connecting (drop c (connecting st)) st)).
    { destruct Hco as (Hdb & Hpos & Hlis & Hnd & Hcon & Hcre & Htm & Hdl & Hat).
      unfold coherent. cbn -[attempts delays seq]. repeat split; trivial.
      - now apply NoDup_drop.
      - intros x Hx. apply In_drop in Hx. now apply Hcon. }
    destruct err as [e |]; cbn [connect_callback] in Hstep.
    + inversion Hstep; subst; clear Hstep.
      pose proof (emit_logs_coherent _
        [("MySQL not ready, retrying in 5 seconds..." ++ " " ++ err_message e)%string]
        Hco1) as (Hdb & Hpos & Hlis & Hnd & Hcon & Hcre & Htm & Hdl & Hat).
      unfold coherent. cbn -[attempts delays seq String.append] in *.
      repeat split; trivial.
      * apply Forall_app. split; [exact Htm | now repeat constructor].
      * rewrite delays_app. apply Forall_app.
        split; [exact Hdl | now repeat constructor].
      * rewrite attempts_app, Hat. cbn. lia.
    + pose proof (emit_logs_coherent _ ["Connected to MySQL database!"] Hco1)
        as (Hdb & Hpos & Hlis & Hnd & Hcon & Hcre & Htm & Hdl & Hat).
      unfold createTableIfNotExists, console_log in Hstep.
      cbn -[attempts delays seq String.append] in *.
      rewrite Hdb in Hstep. inversion Hstep; subst; clear Hstep.
      unfold coherent. cbn -[attempts delays seq String.append].
      repeat split; trivial.
      * intros x Hx. apply in_app_or in Hx. destruct Hx as [Hx | [<- | []]].
        -- now apply Hcre.
        -- lia.
      * rewrite delays_app. cbn. now rewrite app_nil_r.
      * rewrite attempts_app, Hat. cbn. lia.
  - destruct (mem c (listening st)); [| discriminate].
    inversion Hstep; subst; clear Hstep. unfold error_listener.
    pose proof (emit_logs_coherent _
      [("MySQL connection error:" ++ " " ++ err_message e)%string] Hco) as Hlog.
    destruct (code_is e "PROTOCOL_CONNECTION_LOST").
    + now apply connectWithRetry_coherent.
    + exact Hlog.
  - destruct (timers st) as [| d rest] eqn:Ht; [discriminate |].
    inversion Hstep; subst; clear Hstep.
    apply connectWithRetry_coherent.
    destruct Hco as (Hdb & Hpos & Hlis & Hnd & Hcon & Hcre & Htm & Hdl & Hat).
    unfold coherent. cbn -[attempts delays seq]. repeat split; trivial.
    rewrite Ht in Htm. now inversion Htm.
  - destruct (mem c (creating st)); [| discriminate].
    inversion Hstep; subst; clear Hstep.
    assert (Hco1 : coherent (set_creating (drop_one c (creating st)) st)).
    { destruct Hco as (Hdb & Hpos & Hlis & Hnd & Hcon & Hcre & Htm & Hdl & Hat).
      unfold coherent. cbn -[attempts delays seq]. repeat split; trivial.
      intros x Hx. apply In_drop_one in Hx. now apply Hcre. }
    destruct err as [e |]; cbn [table_callback].
    + exact (emit_logs_coherent _
        [("Error creating table:" ++ " " ++ err_message e)%string] Hco1).
    + exact (emit_logs_coherent _ ["Users table is ready!"] Hco1).
Qed.

Lemma run_coherent : forall evs st st1,
  coherent st -> run_events evs st = Some st1 -> coherent st1.
Proof.
  induction evs as [| ev evs IH]; intros st st1 Hco Hrun; cbn in Hrun.
  - now inversion Hrun; subst.
  - destruct (step ev st) as [st0 |] eqn:Hstep; [| discriminate].
    eapply IH; [| exact Hrun]. eapply step_coherent; eassumption.
Qed.

End ManagerInvariant.

(** X7. After any sequence of callbacks from start-up, the global [db] is
    the connection made last, every connection made carries the error
    listener, no connection has its connect callback pending twice, every
    timeout pending or ever set is of 5000 ms, and as many attempts were
    made as connections. *)
Theorem manager_stays_coherent :
  forall (evs : list Lifecycle.event) (st : Lifecycle.manager),
    Lifecycle.run_events evs Lifecycle.startup = Some st ->
    Accounting.coherent st.
Proof.
  intros evs st Hrun.
  exact (run_coherent evs Lifecycle.startup st startup_coherent Hrun).
Qed.

Lemma manager_stays_coherent_witness :
  Accounting.coherent Accounting.closed_in_handshake /\
  Accounting.coherent
    (Accounting.after Accounting.two_tables_on_one_connection).
Proof.
  split.
  - apply (manager_stays_coherent
             [Lifecycle.ErrorEvent 0 Scenario.connection_lost]).
    reflexivity.
  - apply (manager_stays_coherent Accounting.two_tables_on_one_connection).
    reflexivity.
Defined.

Section ManagerRuns.
Import Lifecycle Accounting.

(** A pending connect callback can always run; on success the statement
    goes to the global handle. *)
Lemma connect_callback_runs : forall st c,
  coherent st -> In c (connecting st) ->
  (forall e, exists st1, step (ConnectDone c (Some e)) st = Some st1) /\
  (exists st1,
      step (ConnectDone c None) st = Some st1 /\
      trace st1 = trace st ++ [Log "Connected to MySQL database!";
                               Query (pred (created st)) create_table_sql] /\
      connecting st1 = drop c (connecting st) /\
      creating st1 = creating st ++ [pred (created st)] /\
      timers st1 = timers st /\
      created st1 = created st /\
      db st1 = db st).
Proof.
  intros st c (Hdb & _) Hin. apply mem_In in Hin. split.
  - intros e. cbn [step]. rewrite Hin. eexists. reflexivity.
  - cbn [step]. rewrite Hin.
    unfold connect_callback, createTableIfNotExists, console_log.
    cbn -[String.append]. rewrite Hdb. eexists. split; [reflexivity |].
    cbn. rewrite <- app_assoc. now repeat split.
Qed.

Lemma step_accounting : forall ev st st1,
  step ev st = Some st1 ->
  created st1 = (created st + b2n (is_timer ev) + b2n (is_lost ev))%nat /\
  attempts (trace st1) =
    (attempts (trace st) + b2n (is_timer ev) + b2n (is_lost ev))%nat /\
  List.length (delays (trace st1)) =
    (List.length (delays (trace st)) + b2n (is_refusal ev))%nat /\
  queries (trace st1) = (queries (trace st) + b2n (is_success ev))%nat.
Proof.
  intros ev st st1 Hstep.
  destruct ev as [c [e |] | c e | | c [e |]]; cbn [step] in Hstep.
  - destruct (mem c (connecting st)); [| discriminate].
    inversion Hstep; subst; clear Hstep.
    cbn -[attempts delays queries String.append].
    rewrite !attempts_app, !delays_app, !queries_app, !length_app. cbn. lia.
  - destruct (mem c (connecting st)); [| discriminate].
    unfold connect_callback, createTableIfNotExists, console_log in Hstep.
    cbn -[attempts delays queries String.append] in Hstep.
    destruct (db st); [| discriminate].
    inversion Hstep; subst; clear Hstep.
    cbn -[attempts delays queries String.append].
    rewrite !attempts_app, !delays_app, !queries_app, !length_app. cbn. lia.
  - destruct (mem c (listening st)); [| discriminate].
    inversion Hstep; subst; clear Hstep.
    unfold error_listener. cbn [is_timer is_lost is_refusal is_success].
    destruct (code_is e "PROTOCOL_CONNECTION_LOST");
      cbn -[attempts delays queries String.append];
      rewrite !attempts_app, !delays_app, !queries_app, !length_app; cbn; lia.
  - destruct (timers st) as [| d rest]; [discriminate |].
    inversion Hstep; subst; clear Hstep.
    cbn -[attempts delays queries String.append].
    rewrite !attempts_app, !delays_app, !queries_app, !length_app. cbn. lia.
  - destruct (mem c (creating st)); [| discriminate].
    inversion Hstep; subst; clear Hstep.
    cbn -[attempts delays queries String.append].
    rewrite !attempts_app, !delays_app, !queries_app, !length_app. cbn. lia.
  - destruct (mem c (creating st)); [| discriminate].
    inversion Hstep; subst; clear Hstep.
    cbn -[attempts delays queries String.append].
    rewrite !attempts_app, !delays_app, !queries_app, !length_app. cbn. lia.
Qed.

Lemma count_cons : forall p ev evs,
  count p (ev :: evs) = (b2n (p ev) + count p evs)%nat.
Proof. intros p ev evs. unfold count. cbn. now destruct (p ev). Qed.

Lemma run_accounting : forall evs st st1,
  run_events evs st = Some st1 ->
  created st1 = (created st + count is_timer evs + count is_lost evs)%nat /\
  attempts (trace st1) =
    (attempts (trace st) + count is_timer evs + count is_lost evs)%nat /\
  List.length (delays (trace st1)) =
    (List.length (delays (trace st)) + count is_refusal evs)%nat /\
  queries (trace st1) = (queries (trace st) + count is_success evs)%nat.
Proof.
  induction evs as [| ev evs IH]; intros st st1 Hrun; cbn [run_events] in Hrun.
  - inversion Hrun; subst. unfold count. cbn. lia.
  - destruct (step ev st) as [st0 |] eqn:Hstep; [| discriminate].
    destruct (step_accounting _ _ _ Hstep) as (H1 & H2 & H3 & H4).
    destruct (IH _ _ Hrun) as (I1 & I2 & I3 & I4).
    rewrite !count_cons. lia.
Qed.





End ManagerRuns.

(** X8. After any sequence of callbacks from start-up, a pending connect
    callback runs without error whether the attempt failed or succeeded;
    on success it logs and sends the CREATE TABLE statement on the
    connection made last, which need not be the one that connected, and
    it sets no timeout and makes no attempt. *)
Theorem connect_success_uses_latest_handle :
  forall (evs : list Lifecycle.event) (st : Lifecycle.manager) (c : nat),
    Lifecycle.run_events evs Lifecycle.startup = Some st ->
    In c (Lifecycle.connecting st) ->
    (forall e, exists st1,
        Lifecycle.step (Lifecycle.ConnectDone c (Some e)) st = Some st1) /\
    (exists st1,
        Lifecycle.step (Lifecycle.ConnectDone c None) st = Some st1 /\
        Lifecycle.trace st1 =
          Lifecycle.trace st ++
          [Lifecycle.Log "Connected to MySQL database!";
           Lifecycle.Query (pred (Lifecycle.created st)) create_table_sql] /\
        Lifecycle.connecting st1 =
          Lifecycle.drop c (Lifecycle.connecting st) /\
        Lifecycle.creating st1 =
          Lifecycle.creating st ++ [pred (Lifecycle.created st)] /\
        Lifecycle.timers st1 = Lifecycle.timers st /\
        Lifecycle.created st1 = Lifecycle.created st /\
        Lifecycle.db st1 = Lifecycle.db st).
Proof.
  intros evs st c Hrun Hin.
  apply connect_callback_runs; [| exact Hin].
  exact (run_coherent evs Lifecycle.startup st startup_coherent Hrun).
Qed.

Lemma connect_success_uses_latest_handle_witness :
  In 0%nat (Lifecycle.connecting Accounting.closed_in_handshake) /\
  exists st1,
    Lifecycle.step (Lifecycle.ConnectDone 0 None) Accounting.closed_in_handshake
      = Some st1 /\
    Lifecycle.trace st1 =
      Lifecycle.trace Accounting.closed_in_handshake ++
      [Lifecycle.Log "Connected to MySQL database!";
       Lifecycle.Query 1 create_table_sql].
Proof.
  assert (Hin : In 0%nat (Lifecycle.connecting Accounting.closed_in_handshake))
    by (left; reflexivity).
  split; [exact Hin |].
  destruct (connect_success_uses_latest_handle
              [Lifecycle.ErrorEvent 0 Scenario.connection_lost]
              Accounting.closed_in_handshake 0%nat eq_refl Hin)
    as (_ & st1 & Hstep & Htrace & _).
  exists st1. split; [exact Hstep | exact Htrace].
Defined.

(** X9. Over any run of callbacks, from any state: the connections made
    and the attempts started grow by the number of timeouts that fired
    plus the number of connection-lost errors heard; one timeout is set
    per failed attempt; one CREATE TABLE is sent per successful attempt
    (a failed CREATE TABLE is not sent again). *)
Theorem manager_accounting :
  forall (evs : list Lifecycle.event) (st st1 : Lifecycle.manager),
    Lifecycle.run_events evs st = Some st1 ->
    Lifecycle.created st1 =
      (Lifecycle.created st + Accounting.count Accounting.is_timer evs
       + Accounting.count Accounting.is_lost evs)%nat /\
    Lifecycle.attempts (Lifecycle.trace st1) =
      (Lifecycle.attempts (Lifecycle.trace st)
       + Accounting.count Accounting.is_timer evs
       + Accounting.count Accounting.is_lost evs)%nat /\
    List.length (Lifecycle.delays (Lifecycle.trace st1)) =
      (List.length (Lifecycle.delays (Lifecycle.trace st))
       + Accounting.count Accounting.is_refusal evs)%nat /\
    Accounting.queries (Lifecycle.trace st1) =
      (Accounting.queries (Lifecycle.trace st)
       + Accounting.count Accounting.is_success evs)%nat.
Proof. intros evs st st1 Hrun. now apply run_accounting. Qed.

Lemma manager_accounting_witness :
  exists st1,
    Lifecycle.run_events Accounting.two_tables_on_one_connection
      Lifecycle.startup = Some st1 /\
    Lifecycle.creating st1 = [] /\
    Lifecycle.attempts (Lifecycle.trace st1) = 2%nat /\
    Accounting.queries (Lifecycle.trace st1) = 2%nat.
Proof.
  eexists. split; [reflexivity |]. split; [reflexivity |].
  destruct (manager_accounting
              Accounting.two_tables_on_one_connection
              Lifecycle.startup _ eq_refl)
    as (_ & Hat & _ & Hq).
  split; [exact Hat | exact Hq].
Defined.


(** X11. Hearing a connection-lost error does not cancel a pending retry
    timeout: the listener makes a connection at once and the timeout,
    when it fires, makes another.  Both attempts are then pending beside
    the earlier ones, and the global handle is the later connection. *)
Theorem lost_error_does_not_cancel_timer :
  forall (st : Lifecycle.manager) (c : nat) (e : error) (d : Z) (rest : list Z),
    In c (Lifecycle.listening st) ->
    Lifecycle.code_is e "PROTOCOL_CONNECTION_LOST" = true ->
    Lifecycle.timers st = d :: rest ->
    exists st2 : Lifecycle.manager,
      Lifecycle.run_events [Lifecycle.ErrorEvent c e; Lifecycle.TimerFired] st
        = Some st2 /\
      Lifecycle.created st2 = S (S (Lifecycle.created st)) /\
      Lifecycle.db st2 = Some (S (Lifecycle.created st)) /\
      Lifecycle.connecting st2 =
        Lifecycle.connecting st ++
        [Lifecycle.created st; S (Lifecycle.created st)] /\
      Lifecycle.timers st2 = rest.
Proof.
  intros st c e d rest Hin Hcode Htm. apply mem_In in Hin.
  cbn [Lifecycle.run_events Lifecycle.step]. rewrite Hin.
  unfold Lifecycle.error_listener. rewrite Hcode.
  cbn -[String.append]. rewrite Htm.
  eexists. split; [reflexivity |]. cbn.
  rewrite <- app_assoc. now repeat split.
Qed.

Lemma lost_error_does_not_cancel_timer_witness :
  exists st2 : Lifecycle.manager,
    Lifecycle.run_events
      [Lifecycle.ErrorEvent 0 Scenario.connection_lost; Lifecycle.TimerFired]
      Accounting.refused_once = Some st2 /\
    Lifecycle.created st2 = 3%nat /\
    Lifecycle.db st2 = Some 2%nat /\
    Lifecycle.connecting st2 = [1%nat; 2%nat] /\
    Lifecycle.timers st2 = [].
Proof.
  apply (lost_error_does_not_cancel_timer
           Accounting.refused_once 0%nat Scenario.connection_lost 5000 []).
  - left. reflexivity.
  - reflexivity.
  - reflexivity.
Defined.

(* ------------------------------------------------------------------ *)
(** ** Connection options *)

Lemma or_default_nonempty : forall v fallback,
  fallback <> "" -> Config.or_default v fallback <> "".
Proof.
  intros [s |] fallback Hf; cbn; [| exact Hf].
  destruct (String.eqb s "") eqn:E; [exact Hf |].
  now apply String.eqb_neq in E.
Qed.

Lemma or_default_without_empty : forall env k fallback,
  Config.or_default (Config.without_empty env k) fallback =
  Config.or_default (env k) fallback.
Proof.
  intros env k fallback. unfold Config.without_empty.
  destruct (env k) as [s |]; [| reflexivity].
  destruct (String.eqb s "") eqn:E; cbn; now rewrite ?E.
Qed.

(** X12. Whatever the environment, none of host, user, password and
    database handed to [mysql.createConnection] is the empty string, and
    a variable set to the empty string counts as unset: the fallback is
    used, so an empty password cannot be configured. *)
Theorem connection_options_never_empty :
  forall env : Config.environment,
    Config.host (Config.options_of env) <> "" /\
    Config.user (Config.options_of env) <> "" /\
    Config.password (Config.options_of env) <> "" /\
    Config.database (Config.options_of env) <> "" /\
    Config.options_of (Config.without_empty env) = Config.options_of env.
Proof.
  intros env. unfold Config.options_of. cbn.
  repeat split; try (apply or_default_nonempty; discriminate).
  now rewrite !or_default_without_empty.
Qed.

(* ------------------------------------------------------------------ *)
(** ** Placeholders and bound values *)

(** X13. Every statement a handler sends carries exactly as many bound
    values as its text has [?] marks: no mark is left without a value and
    no value without a mark, for every route, request and driver. *)
Theorem placeholders_match_values :
  forall (D : Type) (driver : string -> list value -> D -> outcome * D)
         (d : D) (r : route) (req : request),
    Forall (fun i => placeholders (i_sql i) = List.length (i_values i))
           (issued_of (serve driver r req d)).
Proof.
  intros D driver d r req.
  eapply Forall_impl; [| apply issued_shape].
  intros i [Hsql Hvalues]. rewrite Hvalues.
  destruct r; cbn in Hsql; inversion Hsql; reflexivity.
Qed.

(* ------------------------------------------------------------------ *)
(** ** The manager does not give up *)

Section NeverIdle.
Import Lifecycle Accounting.

Lemma app_not_nil : forall (A : Type) (l : list A) (x : A), l ++ [x] <> [].
Proof. intros A l x H. now destruct l. Qed.

Lemma step_keeps_busy : forall ev st st1,
  is_success ev = false ->
  connecting st <> [] \/ timers st <> [] ->
  step ev st = Some st1 ->
  connecting st1 <> [] \/ timers st1 <> [].
Proof.
  intros ev st st1 Hev Hbusy Hstep.
  destruct ev as [c [e |] | c e | | c err]; cbn [step] in Hstep;
    try discriminate Hev.
  - destruct (mem c (connecting st)); [| discriminate].
    inversion Hstep; subst. right. cbn. apply app_not_nil.
  - destruct (mem c (listening st)); [| discriminate].
    inversion Hstep; subst. unfold error_listener.
    destruct (code_is e "PROTOCOL_CONNECTION_LOST"); cbn.
    + left. apply app_not_nil.
    + exact Hbusy.
  - destruct (timers st); [discriminate |].
    inversion Hstep; subst. left. cbn. apply app_not_nil.
  - destruct (mem c (creating st)); [| discriminate].
    inversion Hstep; subst. destruct err; cbn; exact Hbusy.
Qed.

Lemma run_keeps_busy : forall evs st st1,
  count is_success evs = 0%nat ->
  connecting st <> [] \/ timers st <> [] ->
  run_events evs st = Some st1 ->
  connecting st1 <> [] \/ timers st1 <> [].
Proof.
  induction evs as [| ev evs IH]; intros st st1 Hnone Hbusy Hrun;
    cbn [run_events] in Hrun.
  - now inversion Hrun; subst.
  - destruct (step ev st) as [st0 |] eqn:Hstep; [| discriminate].
    rewrite count_cons in Hnone.
    assert (Hev : is_success ev = false)
      by (destruct (is_success ev); [cbn in Hnone; lia | reflexivity]).
    rewrite Hev in Hnone. cbn in Hnone.
    eapply IH; [exact Hnone | | exact Hrun].
    eapply step_keeps_busy; eassumption.
Qed.

End NeverIdle.

(** X14. Until an attempt succeeds the manager is never idle: after any
    sequence of callbacks from start-up none of which reports a
    successful connection, a connection attempt or a retry timeout is
    still pending. *)
Theorem manager_never_gives_up :
  forall (evs : list Lifecycle.event) (st : Lifecycle.manager),
    Accounting.count Accounting.is_success evs = 0%nat ->
    Lifecycle.run_events evs Lifecycle.startup = Some st ->
    Lifecycle.connecting st <> [] \/ Lifecycle.timers st <> [].
Proof.
  intros evs st Hnone Hrun.
  apply (run_keeps_busy evs Lifecycle.startup st Hnone); [| exact Hrun].
  left. discriminate.
Qed.

Lemma manager_never_gives_up_witness :
  Lifecycle.connecting Accounting.refused_once <> [] \/
  Lifecycle.timers Accounting.refused_once <> [].
Proof.
  apply (manager_never_gives_up
           [Lifecycle.ConnectDone 0 (Some Scenario.refused)]);
    reflexivity.
Defined.
